(** * Deployment of the [/review-docs] command: a model of
      [scripts/deploy-docs-review-command.py]

    The script is a sequential loop of file-system calls and [git]
    subprocesses.  Its functions are embedded below over an abstract
    host (the operating system and the [git] executable), in a monad
    that threads the host state, propagates Python exceptions and
    records, in order, every line printed and every host call made.
    A concrete host, [Sim], gives the file system and [git] an
    executable meaning, so that the script can be run on explicit
    worlds.

    A Python [str] is represented by its UTF-8 encoding, one [ascii]
    for each byte: this is how the literals below are stored (the
    check mark of the messages is three bytes), and how the files the
    script reads are encoded. *)

From Stdlib Require Import String Ascii List Bool Arith Lia DecimalString.
Import ListNotations.
Open Scope list_scope.
Open Scope string_scope.

(** ** Python strings *)

Module PyStr.

(** [s.startswith(p)] *)
Definition startswith (s p : string) : bool := String.prefix p s.

(** [s.endswith(p)] for a one-character [p] *)
Fixpoint ends_with_char (s : string) (c : ascii) : bool :=
  match s with
  | EmptyString => false
  | String a EmptyString => Ascii.eqb a c
  | String _ rest => ends_with_char rest c
  end.

(** [s.replace(old, new)] for a non-empty [old]: a scan from the left
    that replaces each match and resumes after it.  [skip] counts the
    characters of the current match still to be dropped. *)
Fixpoint replace_from (skip : nat) (old new s : string) : string :=
  match s with
  | EmptyString => EmptyString
  | String c rest =>
      match skip with
      | S k => replace_from k old new rest
      | O =>
          if String.prefix old s
          then new ++ replace_from (String.length old - 1) old new rest
          else String c (replace_from 0 old new rest)
      end
  end.

Definition replace (s old new : string) : string := replace_from 0 old new s.

(** The part of [s] after its last ['/'] ([s] itself when there is none);
    [acc] is the part read since the last ['/']. *)
Fixpoint after_last_slash (s acc : string) : string :=
  match s with
  | EmptyString => acc
  | String c rest =>
      if Ascii.eqb c "/" then after_last_slash rest EmptyString
      else after_last_slash rest (acc ++ String c EmptyString)
  end.

(** [s.split('/')] *)
Fixpoint split_slash (s cur : string) : list string :=
  match s with
  | EmptyString => [cur]
  | String c rest =>
      if Ascii.eqb c "/" then cur :: split_slash rest EmptyString
      else split_slash rest (cur ++ String c EmptyString)
  end.

(** The string of the bytes [l]. *)
Definition bytes (l : list nat) : string :=
  fold_right (fun n s => String (ascii_of_nat n) s) EmptyString l.

(** The characters [str.isspace()] holds of, which [str.strip()]
    removes, each by its encoding: U+0009 to U+000D, U+001C to U+0020,
    U+0085, U+00A0, U+1680, U+2000 to U+200A, U+2028, U+2029, U+202F,
    U+205F and U+3000. *)
Definition whitespace : list string :=
  map bytes
      [ [9]; [10]; [11]; [12]; [13]; [28]; [29]; [30]; [31]; [32];
        [194; 133]; [194; 160];
        [225; 154; 128];
        [226; 128; 128]; [226; 128; 129]; [226; 128; 130]; [226; 128; 131];
        [226; 128; 132]; [226; 128; 133]; [226; 128; 134]; [226; 128; 135];
        [226; 128; 136]; [226; 128; 137]; [226; 128; 138];
        [226; 128; 168]; [226; 128; 169]; [226; 128; 175];
        [226; 129; 159];
        [227; 128; 128] ].

(** [ch.isspace()] for one encoded character *)
Definition isspace (ch : string) : bool := existsb (String.eqb ch) whitespace.

(** [s.lstrip()]: a white-space character is one, two or three bytes. *)
Fixpoint lstrip (s : string) : string :=
  match s with
  | EmptyString => EmptyString
  | String c1 r1 =>
      if isspace (String c1 EmptyString) then lstrip r1
      else
        match r1 with
        | EmptyString => s
        | String c2 r2 =>
            if isspace (String c1 (String c2 EmptyString)) then lstrip r2
            else
              match r2 with
              | EmptyString => s
              | String c3 r3 =>
                  if isspace (String c1 (String c2 (String c3 EmptyString)))
                  then lstrip r3
                  else s
              end
        end
  end.

(** [s.rstrip()]: what is left of [s] once its end is stripped is
    dropped as well when it is one white-space character. *)
Fixpoint rstrip (s : string) : string :=
  match s with
  | EmptyString => EmptyString
  | String c rest =>
      let r := String c (rstrip rest) in
      if isspace r then EmptyString else r
  end.

Definition strip (s : string) : string := rstrip (lstrip s).

(** [sep.join(pieces)] *)
Fixpoint join (sep : string) (pieces : list string) : string :=
  match pieces with
  | [] => EmptyString
  | [p] => p
  | p :: rest => p ++ sep ++ join sep rest
  end.

(** [sub in s] *)
Fixpoint occurs (sub s : string) : bool :=
  String.prefix sub s
  || match s with
     | EmptyString => false
     | String _ rest => occurs sub rest
     end.

(** [s * n] *)
Fixpoint times (s : string) (n : nat) : string :=
  match n with
  | O => EmptyString
  | S k => s ++ times s k
  end.

(** [str(n)] for a natural number and [str(b)] for a boolean, as an
    f-string formats them. *)
Definition of_nat (n : nat) : string := NilEmpty.string_of_uint (Nat.to_uint n).
Definition of_bool (b : bool) : string := if b then "True" else "False".

End PyStr.

(** ** [os.path] (posixpath) functions that only inspect the string *)

Module OsPath.

(** [os.path.basename(p)] *)
Definition basename (p : string) : string := PyStr.after_last_slash p EmptyString.

(** [os.path.join(a, b)] *)
Definition join (a b : string) : string :=
  if PyStr.startswith b "/" then b
  else if (String.eqb a EmptyString || PyStr.ends_with_char a "/")%bool then a ++ b
  else a ++ "/" ++ b.

(** [os.path.join(a, b, c)] *)
Definition join3 (a b c : string) : string := join (join a b) c.

End OsPath.

(** ** Console colours *)

Module Colors.
Definition ESC : string := String (ascii_of_nat 27) EmptyString.
Definition RED : string := ESC ++ "[0;31m".
Definition GREEN : string := ESC ++ "[0;32m".
Definition YELLOW : string := ESC ++ "[1;33m".
Definition BLUE : string := ESC ++ "[0;34m".
Definition NC : string := ESC ++ "[0m".
End Colors.

(** ** Host calls and the observable log *)

(** The calls the script makes to the operating system. *)
Inductive call : Type :=
| CIsDir (p : string)                (* os.path.isdir *)
| CIsFile (p : string)               (* os.path.isfile *)
| CMakedirs (p : string)             (* os.makedirs(p, exist_ok=True) *)
| CCopy2 (src dst : string)          (* shutil.copy2 *)
| CChdir (p : string)                (* os.chdir *)
| CRun (cmd : list string)           (* subprocess.run(cmd, check=True) *)
| COpen (p : string)                 (* open(p, 'r') and its lines *)
| CMkdtemp                           (* tempfile.TemporaryDirectory() *)
| CCleanup (p : string).             (* its cleanup when the with block ends *)

(** Python exceptions the script can meet: [SystemExit] from
    [sys.exit], and the [OSError]s of the file-system calls. *)
Inductive exn : Type :=
| SystemExit (code : nat)
| FileNotFoundError
| NotADirectoryError
| IsADirectoryError
| FileExistsError
| PermissionError
| SameFileError.

(** How a call ended: it returned (True, or normally, or with exit
    status zero), it returned False (for [subprocess.run]: a non-zero
    exit status, that is [CalledProcessError]), or it raised. *)
Inductive reply : Type :=
| RYes
| RNo
| RRaise (e : exn).

(** What an observer of the process sees, in order. *)
Inductive item : Type :=
| Print (s : string)
| Did (c : call) (r : reply).

(** What [subprocess.run(..., capture_output=True, text=True, check=True)]
    does: completes with the standard output of the child, raises
    [CalledProcessError] carrying its standard error, or raises
    something else (no such executable, ...). *)
Inductive proc : Type :=
| Completed (stdout : string)
| CalledProcessError (stderr : string)
| SpawnError (e : exn).

(** The host: the meaning of each call on a world [W]. *)
Class Host (W : Type) : Type := {
  os_path_isdir : string -> W -> bool;
  os_path_isfile : string -> W -> bool;
  os_makedirs : string -> W -> exn + W;
  shutil_copy2 : string -> string -> W -> exn + W;
  os_chdir : string -> W -> exn + W;
  subprocess_run : list string -> W -> proc * W;
  open_lines : string -> W -> exn + list string;
  tempfile_create : W -> exn + (string * W);
  tempfile_cleanup : string -> W -> exn + W
}.

(** ** The script monad *)

(** The result of running a piece of the script on a world: the value
    returned or the exception raised, the world left, and the log. *)
Record outcome (W A : Type) : Type := Outcome {
  res : exn + A;
  final : W;
  log : list item
}.
Arguments Outcome {W A}.
Arguments res {W A}.
Arguments final {W A}.
Arguments log {W A}.

Definition M (W A : Type) : Type := W -> outcome W A.

Definition ret {W A} (a : A) : M W A :=
  fun w => Outcome (inr a) w [].

Definition raise {W A} (e : exn) : M W A :=
  fun w => Outcome (inl e) w [].

Definition bind {W A B} (m : M W A) (f : A -> M W B) : M W B :=
  fun w =>
    match m w with
    | Outcome (inl e) w1 l1 => Outcome (inl e) w1 l1
    | Outcome (inr a) w1 l1 =>
        match f a w1 with
        | Outcome r w2 l2 => Outcome r w2 (l1 ++ l2)%list
        end
    end.

(** [try: body finally: fin] *)
Definition finally {W A} (body : M W A) (fin : M W unit) : M W A :=
  fun w =>
    match body w with
    | Outcome r w1 l1 =>
        match fin w1 with
        | Outcome (inl e) w2 l2 => Outcome (inl e) w2 (l1 ++ l2)%list
        | Outcome (inr _) w2 l2 => Outcome r w2 (l1 ++ l2)%list
        end
    end.

Declare Scope script_scope.
Delimit Scope script_scope with script.
Notation "x <- m ;; k" := (bind m (fun x => k))
  (at level 100, m at next level, right associativity) : script_scope.
Notation "m ;; k" := (bind m (fun _ => k))
  (at level 100, right associativity) : script_scope.
Open Scope script_scope.

(** ** The script *)

Section Script.

Context {W : Type} {H : Host W}.

Definition reply_of_bool (b : bool) : reply := if b then RYes else RNo.

(** [print(text)] *)
Definition print (text : string) : M W unit :=
  fun w => Outcome (inr tt) w [Print text].

(** [os.path.isdir(p)] and [os.path.isfile(p)]: queries, the world is
    left as it is. *)
Definition isdir (p : string) : M W bool :=
  fun w => let b := os_path_isdir p w in
           Outcome (inr b) w [Did (CIsDir p) (reply_of_bool b)].

Definition isfile (p : string) : M W bool :=
  fun w => let b := os_path_isfile p w in
           Outcome (inr b) w [Did (CIsFile p) (reply_of_bool b)].

(** A call that changes the world or raises. *)
Definition perform (c : call) (step : W -> exn + W) : M W unit :=
  fun w =>
    match step w with
    | inl e => Outcome (inl e) w [Did c (RRaise e)]
    | inr w' => Outcome (inr tt) w' [Did c RYes]
    end.

Definition makedirs (p : string) : M W unit :=
  perform (CMakedirs p) (os_makedirs p).

Definition copy2 (src dst : string) : M W unit :=
  perform (CCopy2 src dst) (shutil_copy2 src dst).

Definition chdir (p : string) : M W unit :=
  perform (CChdir p) (os_chdir p).

Definition sys_exit {A} (code : nat) : M W A := raise (SystemExit code).

(** [print_colored(text, color)] *)
Definition print_colored (text color : string) : M W unit :=
  print (color ++ text ++ Colors.NC).

(** [run_command(cmd)], with the default [cwd=None] and
    [capture_output=True] every caller uses: only
    [CalledProcessError] is caught. *)
Definition run_command (cmd : list string) : M W (bool * string) :=
  fun w =>
    match subprocess_run cmd w with
    | (Completed stdout, w') => Outcome (inr (true, stdout)) w' [Did (CRun cmd) RYes]
    | (CalledProcessError stderr, w') => Outcome (inr (false, stderr)) w' [Did (CRun cmd) RNo]
    | (SpawnError e, w') => Outcome (inl e) w' [Did (CRun cmd) (RRaise e)]
    end.

(** [is_git_repo(path)] *)
Definition is_git_repo (path : string) : M W bool :=
  isdir (OsPath.join path ".git").

(** [is_remote_url(repo_path)] *)
Definition is_remote_url (repo_path : string) : bool :=
  PyStr.startswith repo_path "http://"
  || PyStr.startswith repo_path "https://"
  || PyStr.startswith repo_path "git@".

(** [clone_repository(repo_url, target_dir)] *)
Definition clone_repository (repo_url target_dir : string) : M W bool :=
  r <- run_command ["git"; "clone"; repo_url; target_dir] ;;
  ret (fst r).

(** [read_repo_list(file_path)] *)
Definition keep_line (line : string) : bool :=
  negb (String.eqb line "") && negb (PyStr.startswith line "#").

Definition read_repo_list (file_path : string) : M W (list string) :=
  fun w =>
    match open_lines file_path w with
    | inl e => Outcome (inl e) w [Did (COpen file_path) (RRaise e)]
    | inr lines =>
        Outcome (inr (filter keep_line (map PyStr.strip lines))) w
                [Did (COpen file_path) RYes]
    end.

Definition commit_msg : string :=
"Add API documentation review command

Add /review-docs slash command for consistent API documentation review
across Ballerina connectors for low-code editor compatibility.

Co-Authored-By: Claude <noreply@anthropic.com>".

Definition processed_ok : bool * string :=
  (true, "Repository processed successfully").

(** The first block of [process_repository] (lines 94-112): the local
    path of the entry, or the pair returned early. *)
Definition determine_local_path (repo_path temp_dir : string) (dry_run : bool)
  : M W ((bool * string) + string) :=
  if is_remote_url repo_path then
    let repo_name := PyStr.replace (OsPath.basename repo_path) ".git" "" in
    let local_path := OsPath.join temp_dir repo_name in
    print "  Cloning repository..." ;;
    if dry_run then
      print ("  [DRY RUN] Would clone: " ++ repo_path ++ " to " ++ local_path) ;;
      ret (inr local_path)
    else
      cloned <- clone_repository repo_path local_path ;;
      if negb cloned then ret (inl (false, "Failed to clone repository"))
      else
        print_colored "  ✓ Cloned successfully" Colors.GREEN ;;
        ret (inr local_path)
  else
    let local_path := repo_path in
    d <- isdir local_path ;;
    if negb d then ret (inl (false, "Directory not found: " ++ local_path))
    else
      g <- is_git_repo local_path ;;
      if negb g then ret (inl (false, "Not a git repository: " ++ local_path))
      else ret (inr local_path).

(** The second block (lines 114-131): the directory and the copy. *)
Definition deploy_prompt (claude_dir prompt_source target_file : string)
           (dry_run : bool) : M W unit :=
  print "  Creating .claude/commands directory..." ;;
  (if dry_run then
     print ("  [DRY RUN] Would create: " ++ claude_dir)
   else
     makedirs claude_dir ;;
     print_colored "  ✓ Directory ready" Colors.GREEN) ;;
  print "  Copying review-docs.md..." ;;
  if dry_run then
    print ("  [DRY RUN] Would copy: " ++ prompt_source ++ " -> " ++ target_file)
  else
    copy2 prompt_source target_file ;;
    print_colored "  ✓ File copied" Colors.GREEN.

(** The branch taken when a difference was reported (lines 142-166). *)
Definition commit_changes (target_file : string) (do_push dry_run : bool) : M W unit :=
  print "  Committing changes..." ;;
  if dry_run then
    print "  [DRY RUN] Would commit changes"
  else
    run_command ["git"; "add"; target_file] ;;
    run_command ["git"; "commit"; "-m"; commit_msg] ;;
    print_colored "  ✓ Changes committed" Colors.GREEN ;;
    if do_push then
      print "  Pushing changes..." ;;
      if dry_run then
        print "  [DRY RUN] Would push to remote"
      else
        p <- run_command ["git"; "push"] ;;
        if fst p then print_colored "  ✓ Changes pushed" Colors.GREEN
        else print_colored "  ✗ Failed to push changes" Colors.RED
    else ret tt.

(** The git operations (lines 134-168). *)
Definition git_operations (local_path target_file : string)
           (do_push dry_run : bool) : M W unit :=
  chdir local_path ;;
  c <- run_command ["git"; "diff"; "--quiet"; target_file] ;;
  let has_changes := fst c in
  s <- run_command ["git"; "diff"; "--cached"; "--quiet"; target_file] ;;
  let has_staged_changes := fst s in
  if has_changes || has_staged_changes then
    commit_changes target_file do_push dry_run
  else
    print_colored "  ⚠  No changes to commit (file already exists)" Colors.YELLOW.

(** [process_repository(repo_path, prompt_source, temp_dir, do_commit,
    do_push, dry_run)] *)
Definition process_repository (repo_path prompt_source temp_dir : string)
           (do_commit do_push dry_run : bool) : M W (bool * string) :=
  located <- determine_local_path repo_path temp_dir dry_run ;;
  match located with
  | inl early => ret early
  | inr local_path =>
      let claude_dir := OsPath.join3 local_path ".claude" "commands" in
      let target_file := OsPath.join claude_dir "review-docs.md" in
      deploy_prompt claude_dir prompt_source target_file dry_run ;;
      (if do_commit then git_operations local_path target_file do_push dry_run
       else ret tt) ;;
      ret processed_ok
  end.

(** The parsed command line. *)
Record args : Type := Args {
  repo_list : string;
  commit : bool;
  push : bool;
  dry_run : bool
}.

(** The loop of [main] (lines 227-245) from entry number [idx] on:
    the counts of successful and failed entries. *)
Fixpoint process_all (repos : list string) (idx total_repos : nat)
         (prompt_source temp_dir : string) (a : args)
         (successful_repos failed_repos : nat) : M W (nat * nat) :=
  match repos with
  | [] => ret (successful_repos, failed_repos)
  | repo_path :: rest =>
      print_colored (PyStr.times "-" 50) Colors.BLUE ;;
      print_colored ("[" ++ PyStr.of_nat idx ++ "/" ++ PyStr.of_nat total_repos
                     ++ "] Processing: " ++ repo_path) Colors.BLUE ;;
      r <- process_repository repo_path prompt_source temp_dir
             (commit a) (push a) (dry_run a) ;;
      let (success, message) := r in
      if success then
        print_colored ("  ✓ " ++ message) Colors.GREEN ;;
        process_all rest (S idx) total_repos prompt_source temp_dir a
                    (S successful_repos) failed_repos
      else
        print_colored ("  ✗ " ++ message) Colors.RED ;;
        process_all rest (S idx) total_repos prompt_source temp_dir a
                    successful_repos (S failed_repos)
  end.

(** [with tempfile.TemporaryDirectory() as temp_dir: body] *)
Definition with_temporary_directory {A} (body : string -> M W A) : M W A :=
  fun w =>
    match tempfile_create w with
    | inl e => Outcome (inl e) w [Did CMkdtemp (RRaise e)]
    | inr (temp_dir, w') =>
        match finally (body temp_dir)
                      (perform (CCleanup temp_dir) (tempfile_cleanup temp_dir)) w' with
        | Outcome r w2 l => Outcome r w2 (Did CMkdtemp RYes :: l)
        end
    end.

(** [if args.push: args.commit = True] (lines 184-185) *)
Definition effective (parsed : args) : args :=
  if push parsed
  then Args (repo_list parsed) true (push parsed) (dry_run parsed)
  else parsed.

(** [main()], after [parse_args]; [prompt_source] is the path computed
    from the location of the script (lines 188-189). *)
Definition main (parsed : args) (prompt_source : string) : M W unit :=
  let a := effective parsed in
  l <- isfile (repo_list a) ;;
  if negb l then
    print_colored ("Error: Repository list file not found: " ++ repo_list a) Colors.RED ;;
    sys_exit 1
  else
  p <- isfile prompt_source ;;
  if negb p then
    print_colored ("Error: Source prompt file not found: " ++ prompt_source) Colors.RED ;;
    sys_exit 1
  else
  print_colored (PyStr.times "=" 50) Colors.BLUE ;;
  print_colored "Ballerina API Docs Review Command Deployment" Colors.BLUE ;;
  print_colored (PyStr.times "=" 50) Colors.BLUE ;;
  print "" ;;
  print_colored "Configuration:" Colors.YELLOW ;;
  print ("  Repository list: " ++ repo_list a) ;;
  print ("  Source prompt: " ++ prompt_source) ;;
  print ("  Commit changes: " ++ PyStr.of_bool (commit a)) ;;
  print ("  Push changes: " ++ PyStr.of_bool (push a)) ;;
  print ("  Dry run: " ++ PyStr.of_bool (dry_run a)) ;;
  print "" ;;
  repos <- read_repo_list (repo_list a) ;;
  match repos with
  | [] =>
      print_colored "Error: No repositories found in list file" Colors.RED ;;
      sys_exit 1
  | _ :: _ =>
      let total_repos := length repos in
      counts <- with_temporary_directory (fun temp_dir =>
                  process_all repos 1 total_repos prompt_source temp_dir a 0 0) ;;
      let (successful_repos, failed_repos) := counts in
      print "" ;;
      print_colored (PyStr.times "=" 50) Colors.BLUE ;;
      print_colored "Deployment Summary" Colors.BLUE ;;
      print_colored (PyStr.times "=" 50) Colors.BLUE ;;
      print ("  Total repositories: " ++ PyStr.of_nat total_repos) ;;
      print_colored ("  Successful: " ++ PyStr.of_nat successful_repos) Colors.GREEN ;;
      (if Nat.ltb 0 failed_repos
       then print_colored ("  Failed: " ++ PyStr.of_nat failed_repos) Colors.RED
       else ret tt) ;;
      print "" ;;
      (if dry_run a then
         print_colored "This was a dry run. No changes were made." Colors.YELLOW ;;
         print "Run without --dry-run to apply changes." ;;
         print ""
       else ret tt) ;;
      if Nat.ltb 0 failed_repos then sys_exit 1
      else
        print_colored "Deployment completed successfully!" Colors.GREEN ;;
        print "" ;;
        print "Next steps:" ;;
        print "  1. Test the command in one repository: /review-docs" ;;
        print "  2. If issues found, update the prompt and re-run this script" ;;
        print "  3. Create PRs for the changes if needed"
  end.

(** The exit status of the process: [sys.exit(n)] gives [n], any other
    uncaught exception ends the interpreter with status 1. *)
Definition exit_code (r : exn + unit) : nat :=
  match r with
  | inr _ => 0
  | inl (SystemExit n) => n
  | inl _ => 1
  end.

End Script.

(** ** A concrete host: a file system with [git] working copies

    Paths are resolved component by component from the root or from the
    working directory; there are no symbolic links and no permissions.
    A repository keeps, for each tracked file, its content in the index
    and in the last commit.  [git diff --quiet] follows git's
    documented exit status: 1 when there are differences, 0 when there
    are none. *)

Module Sim.

(** An absolute path: the components from the root. *)
Definition path : Type := list string.

(** Files by path relative to the top of a working copy. *)
Definition tree : Type := list (path * string).

Record repo : Type := Repo {
  index : tree;          (* the staging area *)
  head : tree;           (* the tree of the last commit *)
  commits : nat;         (* the number of commits on the branch *)
  upstream : bool;       (* whether [git push] has somewhere to push to *)
  pushed : nat           (* the number of commits the upstream has *)
}.

Inductive node : Type :=
| File (content : string)
| Dir
| GitDir (r : repo).     (* a [.git] directory and the repository in it *)

Record world : Type := World {
  cwd : path;
  fs : list (path * node);
  remotes : list (string * tree);   (* what [git clone url] can fetch *)
  temp_count : nat                  (* temporary directories made so far *)
}.

Definition path_eqb (p q : path) : bool :=
  if list_eq_dec string_dec p q then true else false.

Fixpoint lookup {V} (m : list (path * V)) (p : path) : option V :=
  match m with
  | [] => None
  | (q, v) :: rest => if path_eqb q p then Some v else lookup rest p
  end.

(** Bind [p] to [v], in place when [p] is bound already. *)
Fixpoint update {V} (m : list (path * V)) (p : path) (v : V) : list (path * V) :=
  match m with
  | [] => [(p, v)]
  | (q, x) :: rest => if path_eqb q p then (q, v) :: rest else (q, x) :: update rest p v
  end.

Fixpoint is_prefix (p q : path) : bool :=
  match p, q with
  | [], _ => true
  | a :: p', b :: q' => String.eqb a b && is_prefix p' q'
  | _ :: _, [] => false
  end.

Definition under (p : path) {V} (m : list (path * V)) : list (path * V) :=
  List.filter (fun e => is_prefix p (fst e)) m.

Definition is_dir (f : list (path * node)) (p : path) : bool :=
  match p with
  | [] => true
  | _ => match lookup f p with
         | Some Dir | Some (GitDir _) => true
         | _ => false
         end
  end.

Definition is_file (f : list (path * node)) (p : path) : bool :=
  match lookup f p with
  | Some (File _) => true
  | _ => false
  end.

Definition here (c : string) : bool := String.eqb c "" || String.eqb c ".".

(** Follow the components [comps] from the directory [cur]; every
    component is looked up in a directory. *)
Fixpoint walk (f : list (path * node)) (cur : path) (comps : list string) : option path :=
  match comps with
  | [] => Some cur
  | c :: rest =>
      if is_dir f cur then
        if here c then walk f cur rest
        else if String.eqb c ".." then walk f (removelast cur) rest
        else walk f (cur ++ [c])%list rest
      else None
  end.

Definition start (w : world) (p : string) : path :=
  if PyStr.startswith p "/" then [] else cwd w.

(** The absolute path a path string names, when its directory part
    exists. *)
Definition resolve (w : world) (p : string) : option path :=
  if String.eqb p "" then None
  else walk (fs w) (start w p) (PyStr.split_slash p "").

Definition show (p : path) : string := "/" ++ String.concat "/" p.

Definition sim_isdir (p : string) (w : world) : bool :=
  match resolve w p with
  | Some a => is_dir (fs w) a
  | None => false
  end.

Definition sim_isfile (p : string) (w : world) : bool :=
  match resolve w p with
  | Some a => is_file (fs w) a
  | None => false
  end.

Definition set_fs (w : world) (f : list (path * node)) : world :=
  World (cwd w) f (remotes w) (temp_count w).

(** [os.makedirs(p, exist_ok=True)]: missing directories are made on
    the way; a file on the way is an error. *)
Fixpoint mkdirs (f : list (path * node)) (cur : path) (comps : list string)
  : exn + list (path * node) :=
  match comps with
  | [] => inr f
  | c :: rest =>
      if here c then mkdirs f cur rest
      else if String.eqb c ".." then mkdirs f (removelast cur) rest
      else
        let next := (cur ++ [c])%list in
        match lookup f next with
        | None => mkdirs (update f next Dir) next rest
        | Some (File _) =>
            inl (match rest with [] => FileExistsError | _ => NotADirectoryError end)
        | Some _ => mkdirs f next rest
        end
  end.

Definition sim_makedirs (p : string) (w : world) : exn + world :=
  if String.eqb p "" then inl FileNotFoundError
  else match mkdirs (fs w) (start w p) (PyStr.split_slash p "") with
       | inl e => inl e
       | inr f => inr (set_fs w f)
       end.

(** [shutil.copy2(src, dst)] *)
Definition sim_copy2 (src dst : string) (w : world) : exn + world :=
  match resolve w src with
  | None => inl FileNotFoundError
  | Some s =>
      match lookup (fs w) s with
      | Some (File content) =>
          match resolve w dst with
          | None => inl FileNotFoundError
          | Some d0 =>
              let d := if is_dir (fs w) d0
                       then (d0 ++ [OsPath.basename src])%list else d0 in
              if path_eqb s d then inl SameFileError
              else if is_dir (fs w) d then inl IsADirectoryError
              else if is_dir (fs w) (removelast d)
                   then inr (set_fs w (update (fs w) d (File content)))
                   else inl FileNotFoundError
          end
      | Some _ => inl IsADirectoryError
      | None => inl FileNotFoundError
      end
  end.

(** [os.chdir(p)] *)
Definition sim_chdir (p : string) (w : world) : exn + world :=
  match resolve w p with
  | Some a =>
      if is_dir (fs w) a then inr (World a (fs w) (remotes w) (temp_count w))
      else match lookup (fs w) a with
           | Some _ => inl NotADirectoryError
           | None => inl FileNotFoundError
           end
  | None => inl FileNotFoundError
  end.

(** *** git *)

(** The prefixes of [p], longest first. *)
Definition ancestors (p : path) : list path :=
  map (fun n => firstn n p) (rev (seq 0 (S (length p)))).

(** The working copy the working directory is in: the nearest
    directory, upwards, that holds a [.git]. *)
Definition discover (w : world) : option (path * repo) :=
  match find (fun a => match lookup (fs w) (a ++ [".git"])%list with
                       | Some _ => true
                       | None => false
                       end) (ancestors (cwd w)) with
  | Some top =>
      match lookup (fs w) (top ++ [".git"])%list with
      | Some (GitDir r) => Some (top, r)
      | _ => None
      end
  | None => None
  end.

(** A path argument of a git command: it must exist and lie in the
    working copy; the result is relative to its top. *)
Definition pathspec (w : world) (top : path) (p : string) : option path :=
  match resolve w p with
  | Some a =>
      match lookup (fs w) a with
      | Some _ => if is_prefix top a then Some (skipn (length top) a) else None
      | None => None
      end
  | None => None
  end.

Definition content_eqb (a b : option string) : bool :=
  match a, b with
  | Some x, Some y => String.eqb x y
  | None, None => true
  | _, _ => false
  end.

Definition file_at (w : world) (top rel : path) : option string :=
  match lookup (fs w) (top ++ rel)%list with
  | Some (File c) => Some c
  | _ => None
  end.

(** Does a tracked file under [rel] differ between the index and the
    working tree? *)
Definition worktree_differs (w : world) (top : path) (r : repo) (rel : path) : bool :=
  existsb (fun e => negb (content_eqb (file_at w top (fst e)) (Some (snd e))))
          (under rel (index r)).

(** Does a file under [rel] differ between the last commit and the
    index? *)
Definition index_differs (r : repo) (rel : path) : bool :=
  existsb (fun e => negb (content_eqb (lookup (head r) (fst e)) (Some (snd e))))
          (under rel (index r))
  || existsb (fun e => negb (content_eqb (lookup (index r) (fst e)) (Some (snd e))))
             (under rel (head r)).

Definition exit_status (differences : bool) : proc :=
  if differences then CalledProcessError "" else Completed "".

Definition fatal : proc := CalledProcessError "fatal".

Definition set_repo (w : world) (top : path) (r : repo) : world :=
  set_fs w (update (fs w) (top ++ [".git"])%list (GitDir r)).

Definition git_diff (cached : bool) (p : string) (w : world) : proc * world :=
  match discover w with
  | Some (top, r) =>
      match pathspec w top p with
      | Some rel =>
          (exit_status (if cached then index_differs r rel
                        else worktree_differs w top r rel), w)
      | None => (fatal, w)
      end
  | None => (fatal, w)
  end.

(** The files of the working tree under [top ++ rel], by their path
    relative to [top]; what lies in a [.git] is not part of it. *)
Definition worktree_files (w : world) (top rel : path) : tree :=
  flat_map (fun e => match snd e with
                     | File c =>
                         let q := skipn (length top) (fst e) in
                         if existsb (String.eqb ".git") q then [] else [(q, c)]
                     | _ => []
                     end)
           (under (top ++ rel)%list (fs w)).

(** [git add p]: the index takes the working tree's content under [p]. *)
Definition git_add (p : string) (w : world) : proc * world :=
  match discover w with
  | Some (top, r) =>
      match pathspec w top p with
      | Some rel =>
          let kept := List.filter
                        (fun e => negb (is_prefix rel (fst e))
                                  || is_file (fs w) (top ++ fst e)%list) (index r) in
          let staged := fold_left (fun t e => update t (fst e) (snd e))
                                  (worktree_files w top rel) kept in
          (Completed "",
           set_repo w top (Repo staged (head r) (commits r) (upstream r) (pushed r)))
      | None => (fatal, w)
      end
  | None => (fatal, w)
  end.

(** [git commit -m msg]: fails when nothing is staged. *)
Definition git_commit (w : world) : proc * world :=
  match discover w with
  | Some (top, r) =>
      if index_differs r [] then
        (Completed "",
         set_repo w top (Repo (index r) (index r) (S (commits r)) (upstream r) (pushed r)))
      else (CalledProcessError "nothing to commit", w)
  | None => (fatal, w)
  end.

(** [git push] *)
Definition git_push (w : world) : proc * world :=
  match discover w with
  | Some (top, r) =>
      if upstream r then
        (Completed "",
         set_repo w top (Repo (index r) (head r) (commits r) (upstream r) (commits r)))
      else (fatal, w)
  | None => (fatal, w)
  end.

(** The directories a file at [rel] needs, shortest first. *)
Definition parents (top rel : path) : list path :=
  map (fun n => (top ++ firstn n rel)%list) (seq 1 (length rel - 1)).

Definition checkout (f : list (path * node)) (top : path) (t : tree) : list (path * node) :=
  fold_left (fun f e =>
               update (fold_left (fun f d => update f d Dir) (parents top (fst e)) f)
                      (top ++ fst e)%list (File (snd e)))
            t f.

(** [git clone url target]: the target is a directory that does not
    exist yet in an existing one, or an empty directory.  (git also
    creates the directories that are missing above the target; here
    their absence is an error: every clone of the script is made in
    the temporary directory, which exists.) *)
Definition git_clone (url target : string) (w : world) : proc * world :=
  match List.find (fun e => String.eqb (fst e) url) (remotes w), resolve w target with
  | Some (_, t), Some top =>
      let cloned :=
        let f := update (update (fs w) top Dir) (top ++ [".git"])%list
                        (GitDir (Repo t t 1 true 1)) in
        (Completed "", set_fs w (checkout f top t)) in
      match lookup (fs w) top with
      | None => if is_dir (fs w) (removelast top) then cloned else (fatal, w)
      | Some Dir => if Nat.eqb (length (under top (fs w))) 1 then cloned else (fatal, w)
      | Some _ => (fatal, w)
      end
  | _, _ => (fatal, w)
  end.

Definition usage (w : world) : proc * world := (CalledProcessError "usage", w).

(** [git argv]: the subcommands the script runs. *)
Definition git (argv : list string) (w : world) : proc * world :=
  match argv with
  | sub :: rest =>
      if String.eqb sub "clone" then
        match rest with
        | [url; target] => git_clone url target w
        | _ => usage w
        end
      else if String.eqb sub "diff" then
        match rest with
        | [o; p] => if String.eqb o "--quiet" then git_diff false p w else usage w
        | [o1; o2; p] =>
            if String.eqb o1 "--cached" && String.eqb o2 "--quiet"
            then git_diff true p w else usage w
        | _ => usage w
        end
      else if String.eqb sub "add" then
        match rest with
        | [p] => git_add p w
        | _ => usage w
        end
      else if String.eqb sub "commit" then
        match rest with
        | [o; _] => if String.eqb o "-m" then git_commit w else usage w
        | _ => usage w
        end
      else if String.eqb sub "push" then
        match rest with
        | [] => git_push w
        | _ => usage w
        end
      else usage w
  | [] => usage w
  end.

(** [subprocess.run(cmd)]: [git] is the only executable installed. *)
Definition sim_run (cmd : list string) (w : world) : proc * world :=
  match cmd with
  | prog :: argv =>
      if String.eqb prog "git" then git argv w
      else (SpawnError FileNotFoundError, w)
  | [] => (SpawnError FileNotFoundError, w)
  end.

(** [open(p, 'r')]: the lines of a file, read with universal newlines:
    a line ends with a line feed, a carriage return or the two in a
    row, and is given with a line feed at its end. *)
Fixpoint lines_of (s cur : string) : list string :=
  let LF := String (ascii_of_nat 10) EmptyString in
  match s with
  | EmptyString => if String.eqb cur "" then [] else [cur]
  | String c rest =>
      if Ascii.eqb c (ascii_of_nat 10) then (cur ++ LF) :: lines_of rest ""
      else if Ascii.eqb c (ascii_of_nat 13) then
        match rest with
        | String d rest' =>
            if Ascii.eqb d (ascii_of_nat 10) then (cur ++ LF) :: lines_of rest' ""
            else (cur ++ LF) :: lines_of rest ""
        | EmptyString => [cur ++ LF]
        end
      else lines_of rest (cur ++ String c EmptyString)
  end.

Definition sim_open (p : string) (w : world) : exn + list string :=
  match resolve w p with
  | Some a =>
      match lookup (fs w) a with
      | Some (File c) => inr (lines_of c "")
      | Some _ => inl IsADirectoryError
      | None => inl FileNotFoundError
      end
  | None => inl FileNotFoundError
  end.

(** [tempfile.TemporaryDirectory()]: a fresh directory under [/tmp]. *)
Definition sim_mkdtemp (w : world) : exn + (string * world) :=
  let d := ["tmp"; "tmp" ++ PyStr.of_nat (temp_count w)] in
  if is_dir (fs w) ["tmp"] then
    match lookup (fs w) d with
    | None => inr (show d, World (cwd w) (update (fs w) d Dir) (remotes w)
                                 (S (temp_count w)))
    | Some _ => inl FileExistsError
    end
  else inl FileNotFoundError.

(** Its cleanup: the directory and all it holds are removed. *)
Definition sim_cleanup (p : string) (w : world) : exn + world :=
  match resolve w p with
  | Some a =>
      if is_dir (fs w) a
      then inr (set_fs w (List.filter (fun e => negb (is_prefix a (fst e))) (fs w)))
      else inl FileNotFoundError
  | None => inl FileNotFoundError
  end.

#[export] Instance host : Host world := {
  os_path_isdir := sim_isdir;
  os_path_isfile := sim_isfile;
  os_makedirs := sim_makedirs;
  shutil_copy2 := sim_copy2;
  os_chdir := sim_chdir;
  subprocess_run := sim_run;
  open_lines := sim_open;
  tempfile_create := sim_mkdtemp;
  tempfile_cleanup := sim_cleanup
}.

End Sim.

(** ** Observations on logs and runs *)

(** Did this host call raise? *)
Definition raises (i : item) : bool :=
  match i with
  | Did _ (RRaise _) => true
  | _ => false
  end.

Definition no_raise (l : list item) : bool := forallb (fun i => negb (raises i)) l.

(** The local path of an entry (lines 94-96 and 106). *)
Definition local_path_of (repo_path temp_dir : string) : string :=
  if is_remote_url repo_path
  then OsPath.join temp_dir (PyStr.replace (OsPath.basename repo_path) ".git" "")
  else repo_path.

(** Does the character [c] occur in [s]? *)
Fixpoint has_char (c : ascii) (s : string) : bool :=
  match s with
  | EmptyString => false
  | String a rest => Ascii.eqb a c || has_char c rest
  end.

(** The lines the loop and the git operations print. *)
Definition processing_line (idx total_repos : nat) (repo_path : string) : item :=
  Print (Colors.BLUE
         ++ ("[" ++ PyStr.of_nat idx ++ "/" ++ PyStr.of_nat total_repos
             ++ "] Processing: " ++ repo_path)
         ++ Colors.NC).

Definition committed_line : item :=
  Print (Colors.GREEN ++ "  ✓ Changes committed" ++ Colors.NC).

Definition no_changes_line : item :=
  Print (Colors.YELLOW ++ "  ⚠  No changes to commit (file already exists)" ++ Colors.NC).

Definition push_failed_line : item :=
  Print (Colors.RED ++ "  ✗ Failed to push changes" ++ Colors.NC).

Definition git_add_call (target_file : string) : call :=
  CRun ["git"; "add"; target_file].

Definition git_commit_call : call := CRun ["git"; "commit"; "-m"; commit_msg].

Definition git_push_call : call := CRun ["git"; "push"].

(** The target file of an entry whose local path is [local_path]. *)
Definition target_file_of (local_path : string) : string :=
  OsPath.join (OsPath.join3 local_path ".claude" "commands") "review-docs.md".

Section Attempts.

Context {W : Type} {H : Host W}.

(** Every entry of the list is attempted in turn and returns: the
    success flags of the entries, and the world each one leaves to
    the next. *)
Inductive attempts (prompt_source temp_dir : string) (a : args)
  : list string -> W -> list bool -> W -> Prop :=
| attempts_nil w : attempts prompt_source temp_dir a [] w [] w
| attempts_cons repo_path rest w success message w1 l1 flags w2 :
    process_repository repo_path prompt_source temp_dir
                       (commit a) (push a) (dry_run a) w
    = Outcome (inr (success, message)) w1 l1 ->
    attempts prompt_source temp_dir a rest w1 flags w2 ->
    attempts prompt_source temp_dir a (repo_path :: rest) w (success :: flags) w2.

End Attempts.

(** ** Worlds to run the script on *)

Module Scenario.

Import Sim.

Definition nl : string := String (ascii_of_nat 10) EmptyString.

(** The prompt the script deploys, in the checkout of the tool. *)
Definition prompt_source : string := "/home/u/tool/.claude/commands/review-docs.md".

Definition target : path := [".claude"; "commands"; "review-docs.md"].

Definition readme : tree := [(["README.md"], "hi")].

(** A world with, under [/work]:
    - [repo]: a clean working copy without the command, with an upstream;
    - [done]: the command is committed already, with the prompt's content;
    - [staged]: an older command is committed, a newer one is staged;
    - [local]: as [repo], but with nowhere to push to;
    - [bad]: a working copy where [.claude] is a regular file;
    - [wt]: a linked worktree, its [.git] is a file;
    - [plain]: a directory that is not under version control;
    and, in the home directory, two working copies [a] and [b] and
    the list files. *)
Definition world0 : world :=
  World ["home"; "u"]
    [ (["home"], Dir); (["home"; "u"], Dir); (["tmp"], Dir);
      (["home"; "u"; "tool"], Dir);
      (["home"; "u"; "tool"; ".claude"], Dir);
      (["home"; "u"; "tool"; ".claude"; "commands"], Dir);
      (["home"; "u"; "tool"; ".claude"; "commands"; "review-docs.md"], File "v1");
      (["home"; "u"; "repos.txt"],
       File ("# repositories" ++ nl ++ nl ++ "/work/repo" ++ nl));
      (["home"; "u"; "two.txt"], File ("/work/bad" ++ nl ++ "/work/repo" ++ nl));
      (["home"; "u"; "mixed.txt"], File ("/work/plain" ++ nl ++ "/work/repo" ++ nl));
      (["home"; "u"; "relative.txt"], File ("a" ++ nl ++ "b" ++ nl));
      (["home"; "u"; "empty.txt"], File ("# nothing yet" ++ nl ++ "   " ++ nl));
      (["home"; "u"; "a"], Dir);
      (["home"; "u"; "a"; ".git"], GitDir (Repo readme readme 1 true 1));
      (["home"; "u"; "a"; "README.md"], File "hi");
      (["home"; "u"; "b"], Dir);
      (["home"; "u"; "b"; ".git"], GitDir (Repo readme readme 1 true 1));
      (["home"; "u"; "b"; "README.md"], File "hi");
      (["work"], Dir);
      (["work"; "repo"], Dir);
      (["work"; "repo"; ".git"], GitDir (Repo readme readme 1 true 1));
      (["work"; "repo"; "README.md"], File "hi");
      (["work"; "done"], Dir);
      (["work"; "done"; ".git"],
       GitDir (Repo [(target, "v1")] [(target, "v1")] 1 true 1));
      (["work"; "done"; ".claude"], Dir);
      (["work"; "done"; ".claude"; "commands"], Dir);
      (["work"; "done"; ".claude"; "commands"; "review-docs.md"], File "v1");
      (["work"; "staged"], Dir);
      (["work"; "staged"; ".git"],
       GitDir (Repo [(target, "draft")] [(target, "old")] 1 true 1));
      (["work"; "staged"; ".claude"], Dir);
      (["work"; "staged"; ".claude"; "commands"], Dir);
      (["work"; "staged"; ".claude"; "commands"; "review-docs.md"], File "draft");
      (["work"; "local"], Dir);
      (["work"; "local"; ".git"], GitDir (Repo readme readme 1 false 0));
      (["work"; "local"; "README.md"], File "hi");
      (["work"; "bad"], Dir);
      (["work"; "bad"; ".git"], GitDir (Repo readme readme 1 true 1));
      (["work"; "bad"; "README.md"], File "hi");
      (["work"; "bad"; ".claude"], File "notes");
      (["work"; "wt"], Dir);
      (["work"; "wt"; ".git"], File "gitdir: /work/repo/.git/worktrees/wt");
      (["work"; "wt"; "README.md"], File "hi");
      (["work"; "plain"], Dir) ]
    [ ("https://github.com/org/my.github-tools", readme) ]
    0.

(** A new process on the world a run has left: it starts in the
    directory the first one started in. *)
Definition restart (w : world) : world :=
  World (cwd world0) (fs w) (remotes w) (temp_count w).

(** The repository in the [.git] of the working copy at [top]. *)
Definition repo_at (w : world) (top : path) : option repo :=
  match lookup (fs w) (top ++ [".git"])%list with
  | Some (GitDir r) => Some r
  | _ => None
  end.

Definition commit_only : args := Args "repos.txt" true false false.

Definition first_run : outcome world unit := main commit_only prompt_source world0.

Definition second_run : outcome world unit :=
  main commit_only prompt_source (restart (final first_run)).

(** Membership in a log, decided. *)
Definition call_eqb (c d : call) : bool :=
  match c, d with
  | CIsDir p, CIsDir q | CIsFile p, CIsFile q | CMakedirs p, CMakedirs q
  | CChdir p, CChdir q | COpen p, COpen q | CCleanup p, CCleanup q => String.eqb p q
  | CCopy2 s d, CCopy2 s' d' => String.eqb s s' && String.eqb d d'
  | CRun c, CRun c' => if list_eq_dec string_dec c c' then true else false
  | CMkdtemp, CMkdtemp => true
  | _, _ => false
  end.

Definition printed (s : item) (l : list item) : bool :=
  existsb (fun i => match i, s with
                    | Print a, Print b => String.eqb a b
                    | _, _ => false
                    end) l.

Definition called (c : call) (l : list item) : bool :=
  existsb (fun i => match i with
                    | Did d _ => call_eqb c d
                    | Print _ => false
                    end) l.

End Scenario.

(** ** Runs on these worlds *)

Module Runs.

Import Sim Scenario.

(** The temporary directory of a first run. *)
Definition temp_dir : string := "/tmp/tmp0".

(** [world0] once the process has changed to the directory [p]. *)
Definition entered (p : path) : world :=
  World p (fs world0) (remotes world0) (temp_count world0).

(** The reply to the first call [c] of a log. *)
Definition reply_to (c : call) (l : list item) : option reply :=
  match find (fun i => match i with
                       | Did d _ => call_eqb c d
                       | Print _ => false
                       end) l with
  | Some (Did _ r) => Some r
  | _ => None
  end.

(** The number of commits of the working copy at [top]. *)
Definition commits_at (w : world) (top : path) : option nat :=
  option_map commits (repo_at w top).

Definition done_repo : repo := Repo [(target, "v1")] [(target, "v1")] 1 true 1.

(** Entries processed with [--commit]. *)
Definition commit_entry (repo_path : string) (w : world) : outcome world (bool * string) :=
  process_repository repo_path prompt_source temp_dir true false false w.

Definition commit_and_push_entry (repo_path : string) (w : world)
  : outcome world (bool * string) :=
  process_repository repo_path prompt_source temp_dir true true false w.


Definition plain_entry (repo_path : string) (w : world) : outcome world (bool * string) :=
  process_repository repo_path prompt_source temp_dir false false false w.

Definition remote_url : string := "https://github.com/org/my.github-tools".

End Runs.

(** ** Further observations *)

(** The lines of the push block of a dry run (lines 158-160). *)
Definition pushing_line : item := Print "  Pushing changes...".

Definition would_push_line : item := Print "  [DRY RUN] Would push to remote".

(** The last line of a run without failure (line 266 is the first of
    them). *)
Definition completed_line : item :=
  Print (Colors.GREEN ++ "Deployment completed successfully!" ++ Colors.NC).

(** The calls that only ask the host something. *)
Definition query_call (c : call) : bool :=
  match c with
  | CIsDir _ | CIsFile _ | COpen _ => true
  | _ => false
  end.

(** The directory and the copy an entry at [local_path] is to get. *)
Definition claude_dir_of (local_path : string) : string :=
  OsPath.join3 local_path ".claude" "commands".

(** The lines of the summary (lines 252-255). *)
Definition total_line (n : nat) : item :=
  Print ("  Total repositories: " ++ PyStr.of_nat n).

Definition successful_line (n : nat) : item :=
  Print (Colors.GREEN ++ ("  Successful: " ++ PyStr.of_nat n) ++ Colors.NC).

Definition failed_line (n : nat) : item :=
  Print (Colors.RED ++ ("  Failed: " ++ PyStr.of_nat n) ++ Colors.NC).

(** The entries [read_repo_list] keeps of the lines of a file. *)
Definition entries_of (lines : list string) : list string :=
  filter keep_line (map PyStr.strip lines).

(** ** More runs on the worlds of [Scenario] *)

Module MoreRuns.

Import Sim Scenario Runs.

(** [world0] once [main] has created its temporary directory. *)
Definition with_temp_dir : world :=
  World (cwd world0) (update (fs world0) ["tmp"; "tmp0"] Dir) (remotes world0) 1.

(** A URL no repository answers at. *)
Definition missing_url : string := "https://github.com/org/missing".

(** The command line that names the list [name] and sets no flag. *)
Definition plain_run (name : string) : args := Args name false false false.

(** The temporary directory gone. *)
Definition cleaned (w : world) : world :=
  World (cwd w) (List.filter (fun e => negb (is_prefix ["tmp"; "tmp0"] (fst e))) (fs w))
        (remotes w) (temp_count w).

End MoreRuns.

(** ** The loop, entry by entry *)

(** The lines the loop prints around an entry (lines 228-229, 241 and
    244). *)
Definition separator_line : item :=
  Print (Colors.BLUE ++ PyStr.times "-" 50 ++ Colors.NC).

Definition result_line (success : bool) (message : string) : item :=
  if success then Print (Colors.GREEN ++ ("  ✓ " ++ message) ++ Colors.NC)
  else Print (Colors.RED ++ ("  ✗ " ++ message) ++ Colors.NC).

Section EntriesRun.

Context {W : Type} {H : Host W}.

(** The entries of a list processed one after the other, the first
    numbered [idx]: each is given to [process_repository] in the world
    the one before has left and returns a pair; [flags] are their
    successes, and the log is what the loop has printed and done. *)
Inductive entries_run (prompt_source temp_dir : string) (a : args) (total_repos : nat)
  : nat -> list string -> W -> list bool -> W -> list item -> Prop :=
| entries_run_nil idx w :
    entries_run prompt_source temp_dir a total_repos idx [] w [] w []
| entries_run_cons idx repo_path rest w success message w1 l1 flags w2 l2 :
    process_repository repo_path prompt_source temp_dir
                       (commit a) (push a) (dry_run a) w
    = Outcome (inr (success, message)) w1 l1 ->
    entries_run prompt_source temp_dir a total_repos (S idx) rest w1 flags w2 l2 ->
    entries_run prompt_source temp_dir a total_repos idx (repo_path :: rest) w
                (success :: flags) w2
                (separator_line :: processing_line idx total_repos repo_path
                 :: l1 ++ result_line success message :: l2)%list.

End EntriesRun.

(** ** What a dry run prints and asks *)








(** ** The lines of the list file *)

(** A string of white-space characters only. *)
Inductive all_space : string -> Prop :=
| all_space_nil : all_space ""
| all_space_cons ch rest :
    PyStr.isspace ch = true -> all_space rest -> all_space (ch ++ rest).

(** The entries kept of the lines of a file, as the loop of
    [read_repo_list] goes through them (lines 74-77): a line that is
    empty once stripped, or then starts with [#], is passed over, and
    any other line gives its stripped form as the next entry. *)
Inductive kept_lines : list string -> list string -> Prop :=
| kept_none : kept_lines [] []
| kept_skip line lines repos :
    PyStr.strip line = "" \/ PyStr.startswith (PyStr.strip line) "#" = true ->
    kept_lines lines repos ->
    kept_lines (line :: lines) repos
| kept_entry line lines repos :
    PyStr.strip line <> "" ->
    PyStr.startswith (PyStr.strip line) "#" = false ->
    kept_lines lines repos ->
    kept_lines (line :: lines) (PyStr.strip line :: repos).

(** ** List files with white space that is not ASCII *)

Module SpacedLists.

Import Sim Scenario Runs MoreRuns.

(** U+00A0, the no-break space, and U+3000, the ideographic space. *)
Definition nbsp : string := PyStr.bytes [194; 160].
Definition wide : string := PyStr.bytes [227; 128; 128].

(** [world0] with two more lists: [spaced.txt] names [/work/repo]
    between no-break spaces, after a line of such spaces and a
    comment behind one; [blank.txt] has nothing but such spaces. *)
Definition world1 : world :=
  set_fs world0
         (update (update (fs world0) ["home"; "u"; "spaced.txt"]
                         (File (nbsp ++ wide ++ nl
                                ++ wide ++ "# the tools" ++ nl
                                ++ nbsp ++ "/work/repo" ++ nbsp ++ " " ++ nl)))
                 ["home"; "u"; "blank.txt"]
                 (File (nbsp ++ nl ++ " " ++ wide ++ nl))).

(** [world1] once [main] has created its temporary directory. *)
Definition world1_with_temp_dir : world :=
  World (cwd world1) (update (fs world1) ["tmp"; "tmp0"] Dir) (remotes world1) 1.

End SpacedLists.

(** * Properties *)

(** Run a stage of the script symbolically: unfold it, then split on
    every answer the host can give. *)
Ltac unfold_script :=
  cbv beta iota zeta delta
    [determine_local_path deploy_prompt commit_changes git_operations
     clone_repository is_git_repo run_command isdir isfile perform
     makedirs copy2 chdir print print_colored bind ret fst snd app
     res final log negb orb andb reply_of_bool].

Ltac split_on_host :=
  match goal with
  | |- context [match ?x with _ => _ end] =>
      lazymatch x with
      | context [match _ with _ => _ end] => fail
      | _ => destruct x eqn:?
      end
  end.

Ltac run_script := unfold_script; repeat (split_on_host; unfold_script).

(** Decide a membership [In x l] in an explicit log. *)
Ltac absurd_in H := simpl in H; repeat destruct H as [H | H]; try discriminate H; try contradiction.

Section Stages.

Context {W : Type} {H : Host W}.

Lemma bind_unfold {A B} (m : M W A) (f : A -> M W B) (w : W) :
  bind m f w =
  match res (m w) with
  | inl e => Outcome (inl e) (final (m w)) (log (m w))
  | inr a =>
      Outcome (res (f a (final (m w)))) (final (f a (final (m w))))
              (log (m w) ++ log (f a (final (m w))))%list
  end.
Proof.
  unfold bind. destruct (m w) as [[e | a] w1 l1]; simpl; [reflexivity |].
  destruct (f a w1); reflexivity.
Qed.

(** [process_repository] as the sequence of its three blocks. *)
Lemma process_repository_stages repo_path prompt_source temp_dir do_commit do_push dry_run w :
  process_repository repo_path prompt_source temp_dir do_commit do_push dry_run w =
  let o1 := determine_local_path repo_path temp_dir dry_run w in
  match res o1 with
  | inl e => Outcome (inl e) (final o1) (log o1)
  | inr (inl early) => Outcome (inr early) (final o1) (log o1)
  | inr (inr local_path) =>
      let target_file := target_file_of local_path in
      let o2 := deploy_prompt (OsPath.join3 local_path ".claude" "commands")
                              prompt_source target_file dry_run (final o1) in
      match res o2 with
      | inl e => Outcome (inl e) (final o2) (log o1 ++ log o2)%list
      | inr _ =>
          let o3 := (if do_commit
                     then git_operations local_path target_file do_push dry_run
                     else ret tt) (final o2) in
          Outcome (match res o3 with
                   | inl e => inl e
                   | inr _ => inr processed_ok
                   end) (final o3) (log o1 ++ log o2 ++ log o3)%list
      end
  end.
Proof.
  unfold process_repository, target_file_of. rewrite bind_unfold. cbv zeta.
  destruct (determine_local_path repo_path temp_dir dry_run w) as [[e | [early | lp]] w1 l1];
    simpl; [reflexivity | now rewrite app_nil_r |].
  rewrite bind_unfold.
  destruct (deploy_prompt _ _ _ _ w1) as [[e | []] w2 l2]; simpl; [reflexivity |].
  rewrite bind_unfold.
  destruct do_commit;
    [destruct (git_operations lp _ do_push dry_run w2) as [[e | []] w3 l3]
    | unfold ret]; simpl; try reflexivity; now rewrite app_nil_r.
Qed.

Lemma no_raise_app l1 l2 : no_raise (l1 ++ l2) = no_raise l1 && no_raise l2.
Proof. apply forallb_app. Qed.

(** An exception leaves a stage only when a host call raised it. *)
Lemma determine_local_path_raise repo_path temp_dir dry_run w e :
  res (determine_local_path repo_path temp_dir dry_run w) = inl e ->
  no_raise (log (determine_local_path repo_path temp_dir dry_run w)) = false.
Proof. run_script; simpl; intros R; try discriminate R; reflexivity. Qed.

Lemma deploy_prompt_raise claude_dir prompt_source target_file dry_run w e :
  res (deploy_prompt claude_dir prompt_source target_file dry_run w) = inl e ->
  no_raise (log (deploy_prompt claude_dir prompt_source target_file dry_run w)) = false.
Proof. run_script; simpl; intros R; try discriminate R; reflexivity. Qed.

Lemma commit_changes_raise target_file do_push dry_run w e :
  res (commit_changes target_file do_push dry_run w) = inl e ->
  no_raise (log (commit_changes target_file do_push dry_run w)) = false.
Proof. run_script; simpl; intros R; try discriminate R; reflexivity. Qed.

Lemma git_operations_raise local_path target_file do_push dry_run w e :
  res (git_operations local_path target_file do_push dry_run w) = inl e ->
  no_raise (log (git_operations local_path target_file do_push dry_run w)) = false.
Proof. run_script; simpl; intros R; try discriminate R; reflexivity. Qed.

Lemma process_repository_raise repo_path prompt_source temp_dir do_commit do_push dry_run w e :
  res (process_repository repo_path prompt_source temp_dir do_commit do_push dry_run w) = inl e ->
  no_raise (log (process_repository repo_path prompt_source temp_dir
                                    do_commit do_push dry_run w)) = false.
Proof.
  rewrite process_repository_stages. cbv zeta.
  destruct (res (determine_local_path repo_path temp_dir dry_run w))
    as [e1 | [early | lp]] eqn:R1; simpl.
  - intros _. eapply determine_local_path_raise; eassumption.
  - discriminate.
  - destruct (res (deploy_prompt _ _ _ _ _)) as [e2 | []] eqn:R2; simpl.
    + intros _. rewrite no_raise_app.
      erewrite deploy_prompt_raise by eassumption. apply andb_false_r.
    + destruct do_commit; simpl; [| discriminate].
      destruct (res (git_operations _ _ _ _ _)) as [e3 | []] eqn:R3; [| discriminate].
      intros _. rewrite !no_raise_app.
      erewrite git_operations_raise by eassumption. now rewrite !andb_false_r.
Qed.

(** The host calls each block can make. *)
Lemma determine_local_path_calls repo_path temp_dir dry_run w c r :
  In (Did c r) (log (determine_local_path repo_path temp_dir dry_run w)) ->
  (exists q, c = CIsDir q)
  \/ (dry_run = false
      /\ c = CRun ["git"; "clone"; repo_path; local_path_of repo_path temp_dir]).
Proof.
  unfold local_path_of. run_script; intros HIn; absurd_in HIn;
    injection HIn as <- <-; eauto.
Qed.

Lemma deploy_prompt_calls claude_dir prompt_source target_file dry_run w c r :
  In (Did c r) (log (deploy_prompt claude_dir prompt_source target_file dry_run w)) ->
  dry_run = false /\ (c = CMakedirs claude_dir \/ c = CCopy2 prompt_source target_file).
Proof.
  run_script; intros HIn; absurd_in HIn; injection HIn as <- <-; auto.
Qed.


(** After a failed push the block still ends normally, having
    reported the failure. *)
Lemma git_operations_push_failure local_path target_file do_push dry_run w :
  In (Did git_push_call RNo) (log (git_operations local_path target_file do_push dry_run w)) ->
  res (git_operations local_path target_file do_push dry_run w) = inr tt
  /\ In push_failed_line (log (git_operations local_path target_file do_push dry_run w)).
Proof.
  unfold git_push_call, push_failed_line.
  run_script; intros HIn; absurd_in HIn; (split; [reflexivity | simpl; auto 20]).
Qed.

(** Once [git add] has been run and nothing raises, the block ends
    normally and announces a commit, whatever [git add] and
    [git commit] answered. *)
Lemma git_operations_commit_branch local_path target_file do_push dry_run w t ra :
  In (Did (git_add_call t) ra) (log (git_operations local_path target_file do_push dry_run w)) ->
  no_raise (log (git_operations local_path target_file do_push dry_run w)) = true ->
  res (git_operations local_path target_file do_push dry_run w) = inr tt
  /\ In committed_line (log (git_operations local_path target_file do_push dry_run w))
  /\ exists rc, In (Did git_commit_call rc)
                   (log (git_operations local_path target_file do_push dry_run w)).
Proof.
  unfold git_add_call, git_commit_call, committed_line.
  run_script; intros HIn; absurd_in HIn; simpl; intros NR; try discriminate NR;
    (split; [reflexivity | split; [simpl; auto 20 | eexists; simpl; auto 20]]).
Qed.

End Stages.

Section Entry.

Context {W : Type} {H : Host W}.

Lemma push_not_before_git repo_path temp_dir prompt_source claude_dir target_file dry_run w w' r :
  ~ In (Did git_push_call r) (log (determine_local_path repo_path temp_dir dry_run w))
  /\ ~ In (Did git_push_call r)
          (log (deploy_prompt claude_dir prompt_source target_file dry_run w')).
Proof.
  split; intros HIn.
  - apply determine_local_path_calls in HIn as [[q E] | [_ E]]; discriminate E.
  - apply deploy_prompt_calls in HIn as [_ [E | E]]; discriminate E.
Qed.

Lemma add_not_before_git repo_path temp_dir prompt_source claude_dir target_file dry_run w w' t r :
  ~ In (Did (git_add_call t) r) (log (determine_local_path repo_path temp_dir dry_run w))
  /\ ~ In (Did (git_add_call t) r)
          (log (deploy_prompt claude_dir prompt_source target_file dry_run w')).
Proof.
  split; intros HIn.
  - apply determine_local_path_calls in HIn as [[q E] | [_ E]]; discriminate E.
  - apply deploy_prompt_calls in HIn as [_ [E | E]]; discriminate E.
Qed.

(** C6.  When [git push] fails (a non-zero exit status), the failure
    is reported and [process_repository] still returns the success
    pair: a failed push never makes the entry fail. *)
Theorem push_failure_keeps_entry_successful
        repo_path prompt_source temp_dir do_commit do_push dry_run w :
  let o := process_repository repo_path prompt_source temp_dir
                              do_commit do_push dry_run w in
  In (Did git_push_call RNo) (log o) ->
  res o = inr processed_ok /\ In push_failed_line (log o).
Proof.
  intros o. subst o. rewrite process_repository_stages. cbv zeta.
  destruct (res (determine_local_path repo_path temp_dir dry_run w))
    as [e1 | [early | lp]]; simpl.
  1, 2: intros HIn; now apply push_not_before_git in HIn.
  destruct (res (deploy_prompt _ _ _ _ _)) as [e2 | []]; simpl; intros HIn.
  - apply in_app_or in HIn as [HIn | HIn]; now apply push_not_before_git in HIn.
  - apply in_app_or in HIn as [HIn | HIn]; [now apply push_not_before_git in HIn |].
    apply in_app_or in HIn as [HIn | HIn]; [now apply push_not_before_git in HIn |].
    destruct do_commit; [| contradiction].
    apply git_operations_push_failure in HIn as [R P]. rewrite R.
    split; [reflexivity |]. apply in_or_app. right. apply in_or_app. now right.
Qed.

(** C8.  Once the commit branch is taken outside a dry run, that is
    once [git add] has been run, and provided no call raises,
    [process_repository] announces the commit and returns the
    success pair, whatever [git add] and [git commit] answered. *)
Theorem commit_result_is_ignored
        repo_path prompt_source temp_dir do_commit do_push dry_run w t ra :
  let o := process_repository repo_path prompt_source temp_dir
                              do_commit do_push dry_run w in
  In (Did (git_add_call t) ra) (log o) ->
  no_raise (log o) = true ->
  res o = inr processed_ok
  /\ In committed_line (log o)
  /\ exists rc, In (Did git_commit_call rc) (log o).
Proof.
  intros o. subst o. rewrite process_repository_stages. cbv zeta.
  destruct (res (determine_local_path repo_path temp_dir dry_run w))
    as [e1 | [early | lp]]; simpl.
  1, 2: intros HIn; now apply add_not_before_git in HIn.
  destruct (res (deploy_prompt _ _ _ _ _)) as [e2 | []]; simpl; intros HIn.
  - apply in_app_or in HIn as [HIn | HIn]; now apply add_not_before_git in HIn.
  - apply in_app_or in HIn as [HIn | HIn]; [now apply add_not_before_git in HIn |].
    apply in_app_or in HIn as [HIn | HIn]; [now apply add_not_before_git in HIn |].
    destruct do_commit; [| contradiction].
    rewrite !no_raise_app. intros NR.
    apply andb_prop in NR as [_ NR]. apply andb_prop in NR as [_ NR].
    destruct (git_operations_commit_branch _ _ _ _ _ _ _ HIn NR) as (R & C & rc & K).
    rewrite R. split; [reflexivity |].
    split; [| exists rc]; apply in_or_app; right; apply in_or_app; now right.
Qed.

(** C10.  A local entry that is a directory is rejected as not being
    a git repository exactly when [os.path.isdir] is false of its
    [.git]: a [.git] that is a file does not count. *)
Theorem local_entry_needs_git_directory
        repo_path prompt_source temp_dir do_commit do_push dry_run w :
  is_remote_url repo_path = false ->
  os_path_isdir repo_path w = true ->
  res (process_repository repo_path prompt_source temp_dir do_commit do_push dry_run w)
  = inr (false, "Not a git repository: " ++ repo_path)
  <-> os_path_isdir (OsPath.join repo_path ".git") w = false.
Proof.
  intros L D. rewrite process_repository_stages. cbv zeta.
  unfold determine_local_path, is_git_repo, isdir, bind, ret. rewrite L, D. simpl.
  destruct (os_path_isdir (OsPath.join repo_path ".git") w); simpl.
  - split; [| discriminate].
    destruct (res (deploy_prompt _ _ _ _ _)) as [e2 | []]; simpl; [discriminate |].
    destruct (res _); discriminate.
  - split; reflexivity.
Qed.

End Entry.

Section DryRun.

Context {W : Type} {H : Host W}.



End DryRun.

Section Loop.

Context {W : Type} {H : Host W}.

(** One turn of the loop of [main]. *)
Lemma process_all_cons repo_path rest idx total_repos prompt_source temp_dir a s f w :
  process_all (repo_path :: rest) idx total_repos prompt_source temp_dir a s f w =
  let o := process_repository repo_path prompt_source temp_dir
                              (commit a) (push a) (dry_run a) w in
  let head := [Print (Colors.BLUE ++ PyStr.times "-" 50 ++ Colors.NC);
               processing_line idx total_repos repo_path] in
  match res o with
  | inl e => Outcome (inl e) (final o) (head ++ log o)
  | inr (true, message) =>
      let o' := process_all rest (S idx) total_repos prompt_source temp_dir a
                            (S s) f (final o) in
      Outcome (res o') (final o')
              (head ++ log o
               ++ Print (Colors.GREEN ++ ("  ✓ " ++ message) ++ Colors.NC) :: log o')
  | inr (false, message) =>
      let o' := process_all rest (S idx) total_repos prompt_source temp_dir a
                            s (S f) (final o) in
      Outcome (res o') (final o')
              (head ++ log o
               ++ Print (Colors.RED ++ ("  ✗ " ++ message) ++ Colors.NC) :: log o')
  end.
Proof.
  cbn [process_all]. unfold processing_line, print_colored, print.
  rewrite !bind_unfold. cbn [res final log]. cbv zeta.
  destruct (process_repository _ _ _ _ _ _ w) as [[e | [[|] message]] w1 l1];
    cbn [res final log app]; [reflexivity | |];
    rewrite bind_unfold; cbn [res final log];
    destruct (process_all rest _ _ _ _ _ _ _ w1) as [r' w' l']; reflexivity.
Qed.

(** When every entry returns, the loop returns the numbers of
    successes and of failures. *)
Lemma attempts_counts prompt_source temp_dir a repos w flags w' :
  attempts prompt_source temp_dir a repos w flags w' ->
  forall idx total_repos s f,
  exists l,
    process_all repos idx total_repos prompt_source temp_dir a s f w
    = Outcome (inr (s + length (filter (fun b => b) flags),
                    f + length (filter negb flags))) w' l.
Proof.
  induction 1 as [w | repo_path rest w success message w1 l1 flags w2 R A IH];
    intros idx total_repos s f.
  - exists []. cbn. now rewrite !Nat.add_0_r.
  - rewrite process_all_cons. cbv zeta. rewrite R. cbn [res final log].
    destruct success; cbn [filter negb length].
    + destruct (IH (S idx) total_repos (S s) f) as [l E]. rewrite E.
      cbn [res final log]. eexists. f_equal. f_equal; f_equal; lia.
    + destruct (IH (S idx) total_repos s (S f)) as [l E]. rewrite E.
      cbn [res final log]. eexists. f_equal. f_equal; f_equal; lia.
Qed.

Lemma no_failure_count flags :
  Nat.ltb 0 (length (filter negb flags)) = existsb negb flags.
Proof.
  induction flags as [| [|] flags IH]; cbn; [reflexivity | exact IH | reflexivity].
Qed.

End Loop.

(** ** The working directory *)

Section Frame.

Context {W : Type} {H : Host W}.

(** An observation of the world that only [os.chdir] can change. *)
Context {K : Type} (key : W -> K).
Hypothesis makedirs_keeps : forall q w w', os_makedirs q w = inr w' -> key w' = key w.
Hypothesis copy2_keeps : forall s d w w', shutil_copy2 s d w = inr w' -> key w' = key w.
Hypothesis run_keeps : forall cmd w, key (snd (subprocess_run cmd w)) = key w.

Ltac note_keys :=
  repeat match goal with
         | E : subprocess_run ?c ?w = (_, ?w') |- _ =>
             lazymatch goal with
             | _ : key w' = key w |- _ => fail
             | _ => let K := fresh "K" in
                    pose proof (run_keeps c w) as K; rewrite E in K; cbn [snd] in K
             end
         | E : os_makedirs ?q ?w = inr ?w' |- _ =>
             lazymatch goal with
             | _ : key w' = key w |- _ => fail
             | _ => pose proof (makedirs_keeps _ _ _ E)
             end
         | E : shutil_copy2 ?s ?d ?w = inr ?w' |- _ =>
             lazymatch goal with
             | _ : key w' = key w |- _ => fail
             | _ => pose proof (copy2_keeps _ _ _ _ E)
             end
         end.

Lemma determine_local_path_keeps repo_path temp_dir dry_run w local_path :
  res (determine_local_path repo_path temp_dir dry_run w) = inr (inr local_path) ->
  local_path = local_path_of repo_path temp_dir
  /\ key (final (determine_local_path repo_path temp_dir dry_run w)) = key w
  /\ ((dry_run = true /\ final (determine_local_path repo_path temp_dir dry_run w) = w)
      \/ (is_remote_url repo_path = false /\ os_path_isdir repo_path w = true)
      \/ (is_remote_url repo_path = true
          /\ exists out w',
              subprocess_run ["git"; "clone"; repo_path; local_path_of repo_path temp_dir] w
              = (Completed out, w'))).
Proof.
  unfold local_path_of. run_script; cbn [res final]; intros R; try discriminate R;
    injection R as <-; note_keys; (split; [reflexivity | split; [congruence || reflexivity |]]);
    eauto 7.
Qed.

Lemma deploy_prompt_keeps claude_dir prompt_source target_file dry_run w :
  res (deploy_prompt claude_dir prompt_source target_file dry_run w) = inr tt ->
  key (final (deploy_prompt claude_dir prompt_source target_file dry_run w)) = key w
  /\ (dry_run = true ->
      final (deploy_prompt claude_dir prompt_source target_file dry_run w) = w).
Proof.
  run_script; cbn [res final]; intros R; try discriminate R; note_keys;
    (split; [congruence || reflexivity | intros D; reflexivity || discriminate D]).
Qed.

Lemma git_operations_keeps local_path target_file do_push dry_run w :
  res (git_operations local_path target_file do_push dry_run w) = inr tt ->
  exists w2,
    os_chdir local_path w = inr w2
    /\ key (final (git_operations local_path target_file do_push dry_run w)) = key w2.
Proof.
  run_script; cbn [res final]; intros R; try discriminate R; note_keys;
    (eexists; split; [reflexivity | congruence || reflexivity]).
Qed.

(** A successful entry with commit requested: the world is, to [key],
    the one [os.chdir(local_path)] left. *)
Lemma commit_run_chain repo_path prompt_source temp_dir do_push dry_run w :
  let o := process_repository repo_path prompt_source temp_dir true do_push dry_run w in
  let local_path := local_path_of repo_path temp_dir in
  res o = inr processed_ok ->
  exists w1 w2,
    key w1 = key w
    /\ os_chdir local_path w1 = inr w2
    /\ key (final o) = key w2
    /\ ((dry_run = true /\ w1 = w)
        \/ (is_remote_url repo_path = false /\ os_path_isdir repo_path w = true)
        \/ (is_remote_url repo_path = true
            /\ exists out w',
                subprocess_run ["git"; "clone"; repo_path; local_path] w
                = (Completed out, w'))).
Proof.
  cbv zeta. rewrite process_repository_stages. cbv zeta.
  destruct (res (determine_local_path repo_path temp_dir dry_run w))
    as [e1 | [early | lp]] eqn:R1; cbn [res final log]; try discriminate.
  - intros E. injection E as ->.
    revert R1. run_script; cbn [res]; discriminate.
  - destruct (determine_local_path_keeps _ _ _ _ _ R1) as (-> & K1 & Ev).
    destruct (res (deploy_prompt _ _ _ _ _)) as [e2 | []] eqn:R2;
      cbn [res final log]; [discriminate |].
    destruct (deploy_prompt_keeps _ _ _ _ _ R2) as [K2 D2].
    destruct (res (git_operations _ _ _ _ _)) as [e3 | []] eqn:R3; [discriminate |].
    intros _. destruct (git_operations_keeps _ _ _ _ _ R3) as (w2 & C & K3).
    eexists. exists w2. split; [| split; [exact C | split; [exact K3 |]]].
    + congruence.
    + destruct Ev as [[D F] | Ev]; [| now right].
      left. split; [exact D |]. rewrite D2 by exact D. exact F.
Qed.

End Frame.

Module SimFacts.

Import Sim.

Ltac split_matches :=
  repeat match goal with
         | |- context [match ?x with _ => _ end] =>
             lazymatch x with
             | context [match _ with _ => _ end] => fail
             | _ => destruct x
             end
         end.

(** Where a walk arrives does not depend on the files met on the way. *)
Lemma walk_det f f' comps : forall cur a a',
  walk f cur comps = Some a -> walk f' cur comps = Some a' -> a = a'.
Proof.
  induction comps as [| c comps IH]; intros cur a a'; cbn [walk].
  - congruence.
  - destruct (is_dir f cur); [| discriminate].
    destruct (is_dir f' cur); [| discriminate].
    destruct (here c); [apply IH |].
    destruct (String.eqb c ".."); apply IH.
Qed.

Lemma resolve_det w w' p a a' :
  cwd w' = cwd w -> resolve w p = Some a -> resolve w' p = Some a' -> a = a'.
Proof.
  unfold resolve, start. intros C. rewrite C.
  destruct (String.eqb p ""); [discriminate |]. apply walk_det.
Qed.

Lemma sim_makedirs_cwd q w w' : sim_makedirs q w = inr w' -> cwd w' = cwd w.
Proof.
  unfold sim_makedirs. destruct (String.eqb q ""); [discriminate |].
  destruct (mkdirs _ _ _); [discriminate |]. now intros [= <-].
Qed.

Lemma sim_copy2_cwd s d w w' : sim_copy2 s d w = inr w' -> cwd w' = cwd w.
Proof.
  unfold sim_copy2. split_matches; intros E; try discriminate E;
    now injection E as <-.
Qed.

Lemma git_cwd argv w : cwd (snd (git argv w)) = cwd w.
Proof.
  unfold git, git_clone, git_diff, git_add, git_commit, git_push, usage.
  split_matches; reflexivity.
Qed.

Lemma sim_run_cwd cmd w : cwd (snd (sim_run cmd w)) = cwd w.
Proof.
  unfold sim_run. destruct cmd as [| prog argv]; [reflexivity |].
  destruct (String.eqb prog "git"); [apply git_cwd | reflexivity].
Qed.

Lemma sim_chdir_cwd p w w' : sim_chdir p w = inr w' -> resolve w p = Some (cwd w').
Proof.
  unfold sim_chdir. destruct (resolve w p) as [a |]; [| discriminate].
  destruct (is_dir (fs w) a); [now intros [= <-] |].
  destruct (lookup (fs w) a); discriminate.
Qed.

Lemma sim_isdir_resolves p w : sim_isdir p w = true -> exists a, resolve w p = Some a.
Proof. unfold sim_isdir. destruct (resolve w p); [eauto | discriminate]. Qed.

Lemma sim_clone_resolves url target w out w' :
  sim_run ["git"; "clone"; url; target] w = (Completed out, w') ->
  exists a, resolve w target = Some a.
Proof.
  cbn. unfold git_clone.
  destruct (find _ (remotes w)) as [[u t] |]; [| discriminate].
  destruct (resolve w target); [eauto | discriminate].
Qed.

(** C7.  When commit is requested and the entry is processed, the
    working directory of the process is left at the local path of the
    entry (resolved from where the entry started), and it is from
    that world that the loop goes on to the next entries: nothing
    puts the working directory back. *)
Theorem working_directory_is_left_at_entry
        repo_path rest prompt_source temp_dir a idx total_repos s f (w : world) :
  commit a = true ->
  let o := process_repository repo_path prompt_source temp_dir
                              (commit a) (push a) (dry_run a) w in
  res o = inr processed_ok ->
  resolve w (local_path_of repo_path temp_dir) = Some (cwd (final o))
  /\ final (process_all (repo_path :: rest) idx total_repos prompt_source temp_dir a s f w)
     = final (process_all rest (S idx) total_repos prompt_source temp_dir a
                          (S s) f (final o)).
Proof.
  intros C o R. subst o. split.
  - revert R. rewrite C. intros R.
    destruct (commit_run_chain (H := host) cwd
                               (fun q w0 w' E => sim_makedirs_cwd q w0 w' E)
                               (fun s0 d w0 w' E => sim_copy2_cwd s0 d w0 w' E)
                               (fun cmd w0 => sim_run_cwd cmd w0)
                               repo_path prompt_source temp_dir (push a) (dry_run a) w R)
      as (w1 & w2 & K1 & Ch & K2 & Ev).
    apply sim_chdir_cwd in Ch. rewrite K2.
    assert (E : exists a0, resolve w (local_path_of repo_path temp_dir) = Some a0).
    { destruct Ev as [[_ <-] | [[L D] | [_ (out & w' & Cl)]]].
      - eauto.
      - unfold local_path_of. rewrite L. now apply sim_isdir_resolves.
      - eapply sim_clone_resolves. exact Cl. }
    destruct E as [a0 E]. rewrite E. f_equal.
    exact (resolve_det w w1 _ _ _ K1 E Ch).
  - rewrite process_all_cons. cbv zeta. rewrite R. reflexivity.
Qed.

End SimFacts.

Module CommitTest.

Import Sim.

(** What the two [git diff --quiet] queries answer in a working copy. *)
Lemma diff_quiet_status t w top r rel :
  discover w = Some (top, r) -> pathspec w top t = Some rel ->
  subprocess_run ["git"; "diff"; "--quiet"; t] w
  = (exit_status (worktree_differs w top r rel), w).
Proof. intros D P. cbn. unfold git_diff. now rewrite D, P. Qed.

Lemma diff_cached_quiet_status t w top r rel :
  discover w = Some (top, r) -> pathspec w top t = Some rel ->
  subprocess_run ["git"; "diff"; "--cached"; "--quiet"; t] w
  = (exit_status (index_differs r rel), w).
Proof. intros D P. cbn. unfold git_diff. now rewrite D, P. Qed.

(** [git] is installed in these worlds: running it never fails to
    start. *)
Lemma git_starts argv w e w' : subprocess_run ("git" :: argv) w <> (SpawnError e, w').
Proof.
  change (git argv w <> (SpawnError e, w')).
  unfold git, git_clone, git_diff, git_add, git_commit, git_push, usage,
    exit_status, fatal.
  SimFacts.split_matches; discriminate.
Qed.

(** C1.  In a working copy, with commit requested and no dry run, the
    script stages and commits the target file exactly when the file
    does NOT differ both from the index and from the last commit:
    [run_command] answers [True] for the exit status 0, which
    [git diff --quiet] gives when there is no difference.  So a file
    without any difference is staged and committed, and reported as
    committed; a file that differs on both sides is reported as
    having no changes to commit. *)
Theorem commit_test_is_inverted local_path target_file do_push (w w1 : world) top r rel :
  sim_chdir local_path w = inr w1 ->
  discover w1 = Some (top, r) ->
  pathspec w1 top target_file = Some rel ->
  let o := git_operations local_path target_file do_push false w in
  let both_differ := worktree_differs w1 top r rel && index_differs r rel in
  ((exists ra, In (Did (git_add_call target_file) ra) (log o)) <-> both_differ = false)
  /\ ((exists rc, In (Did git_commit_call rc) (log o)) <-> both_differ = false)
  /\ (In committed_line (log o) <-> both_differ = false)
  /\ (In no_changes_line (log o) <-> both_differ = true).
Proof.
  intros Ch D P o both_differ. subst o both_differ.
  unfold git_add_call, git_commit_call, committed_line, no_changes_line.
  unfold_script.
  change (os_chdir local_path w) with (sim_chdir local_path w). rewrite Ch.
  cbv beta iota.
  rewrite (diff_quiet_status _ _ _ _ _ D P).
  destruct (worktree_differs w1 top r rel); cbv beta iota delta [exit_status];
    rewrite (diff_cached_quiet_status _ _ _ _ _ D P);
    destruct (index_differs r rel); cbv beta iota delta [exit_status andb];
    repeat (split_on_host; unfold_script);
    try (exfalso;
         match goal with
         | S : subprocess_run ("git" :: ?argv) ?w0 = (SpawnError ?e, ?w') |- _ =>
             exact (git_starts argv w0 e w' S)
         end);
    repeat split; intros X;
    try discriminate X; try reflexivity;
    try (match type of X with ex _ => destruct X as [ra X] end);
    try (simpl in X; contradiction); try (absurd_in X; fail);
    try (eexists; simpl; auto 20; fail); simpl; auto 20.
Qed.

End CommitTest.

(** ** The theorems on the worlds of [Scenario] *)

Module OnScenario.

Import Sim Scenario Runs.

Ltac evaluated := vm_compute; reflexivity.

(** Find an item in a log that evaluates. *)
Ltac in_log := vm_compute; repeat (first [left; reflexivity | right]).

(** The working copy [/work/done], where the deployed prompt is
    committed already and nothing differs: the script stages, runs a
    commit that fails, and announces a commit. *)
Lemma commit_test_is_inverted_witness :
  sim_chdir "/work/done" world0 = inr (entered ["work"; "done"])
  /\ discover (entered ["work"; "done"]) = Some (["work"; "done"], done_repo)
  /\ pathspec (entered ["work"; "done"]) ["work"; "done"] (target_file_of "/work/done")
     = Some target
  /\ worktree_differs (entered ["work"; "done"]) ["work"; "done"] done_repo target
     || index_differs done_repo target = false
  /\ In committed_line
        (log (git_operations "/work/done" (target_file_of "/work/done") false false world0))
  /\ ~ In no_changes_line
        (log (git_operations "/work/done" (target_file_of "/work/done") false false world0)).
Proof.
  assert (Ch : sim_chdir "/work/done" world0 = inr (entered ["work"; "done"]))
    by evaluated.
  assert (D : discover (entered ["work"; "done"]) = Some (["work"; "done"], done_repo))
    by evaluated.
  assert (P : pathspec (entered ["work"; "done"]) ["work"; "done"]
                       (target_file_of "/work/done") = Some target)
    by evaluated.
  destruct (CommitTest.commit_test_is_inverted "/work/done" (target_file_of "/work/done") false
                                    world0 _ _ _ _ Ch D P) as (_ & _ & C & N).
  split; [exact Ch |]. split; [exact D |]. split; [exact P |].
  split; [evaluated |]. split.
  - refine (proj2 C _). evaluated.
  - intros X. pose proof (proj1 N X) as Y. vm_compute in Y. discriminate Y.
Defined.

(** The whole entry on [/work/done] and on [/work/staged]: with no
    difference at all the entry is staged and "committed", the commit
    failing unnoticed; with a staged draft and a new copy in the
    working tree, nothing is staged and "no changes" is reported. *)
Lemma entries_without_and_with_differences :
  (reply_to (git_add_call (target_file_of "/work/done"))
            (log (commit_entry "/work/done" world0)) = Some RYes
   /\ reply_to git_commit_call (log (commit_entry "/work/done" world0)) = Some RNo
   /\ printed committed_line (log (commit_entry "/work/done" world0)) = true
   /\ printed no_changes_line (log (commit_entry "/work/done" world0)) = false
   /\ commits_at (final (commit_entry "/work/done" world0)) ["work"; "done"] = Some 1)
  /\ (called (git_add_call (target_file_of "/work/staged"))
             (log (commit_entry "/work/staged" world0)) = false
      /\ called git_commit_call (log (commit_entry "/work/staged" world0)) = false
      /\ printed no_changes_line (log (commit_entry "/work/staged" world0)) = true
      /\ commits_at (final (commit_entry "/work/staged" world0)) ["work"; "staged"]
         = Some 1).
Proof. repeat split; evaluated. Qed.

(** C2.  The program run twice with [--commit] on [/work/repo], the
    prompt unchanged in between.  The first run creates a commit.
    The second run creates none, but it does not print the
    no-changes message: it stages the file, runs a [git commit]
    that fails with nothing to commit, and prints that the changes
    were committed. *)
Theorem second_run_announces_a_commit :
  res first_run = inr tt
  /\ res second_run = inr tt
  /\ commits_at world0 ["work"; "repo"] = Some 1
  /\ commits_at (final first_run) ["work"; "repo"] = Some 2
  /\ commits_at (final second_run) ["work"; "repo"] = Some 2
  /\ file_at (final first_run) ["work"; "repo"] target = Some "v1"
  /\ file_at (final second_run) ["home"; "u"; "tool"] target = Some "v1"
  /\ reply_to git_commit_call (log first_run) = Some RYes
  /\ reply_to (git_add_call (target_file_of "/work/repo")) (log second_run) = Some RYes
  /\ reply_to git_commit_call (log second_run) = Some RNo
  /\ printed committed_line (log second_run) = true
  /\ printed no_changes_line (log second_run) = false.
Proof. repeat split; evaluated. Qed.

(** Against C3 as stated: [.claude] is a regular file in [/work/bad],
    [os.makedirs] raises, nothing catches it, and the entry
    [/work/repo] that follows in the list is never attempted. *)
Lemma makedirs_error_leaves_the_loop :
  res (plain_entry "/work/bad" world0) = inl NotADirectoryError
  /\ res (main (Args "two.txt" false false false) prompt_source world0)
     = inl NotADirectoryError
  /\ printed (processing_line 1 2 "/work/bad")
             (log (main (Args "two.txt" false false false) prompt_source world0)) = true
  /\ printed (processing_line 2 2 "/work/repo")
             (log (main (Args "two.txt" false false false) prompt_source world0)) = false
  /\ called (CIsDir "/work/repo")
            (log (main (Args "two.txt" false false false) prompt_source world0)) = false.
Proof. repeat split; evaluated. Qed.


(** [/work/local] has no upstream: the push fails, the failure is
    printed and the entry is successful. *)
Lemma push_failure_keeps_entry_successful_witness :
  In (Did git_push_call RNo) (log (commit_and_push_entry "/work/local" world0))
  /\ res (commit_and_push_entry "/work/local" world0) = inr processed_ok
  /\ In push_failed_line (log (commit_and_push_entry "/work/local" world0)).
Proof.
  assert (P : In (Did git_push_call RNo) (log (commit_and_push_entry "/work/local" world0)))
    by in_log.
  split; [exact P |].
  exact (push_failure_keeps_entry_successful "/work/local" prompt_source temp_dir
                                             true true false world0 P).
Defined.

(** The entries [a] and [b] of [relative.txt], from [/home/u]: the
    first leaves the process in [/home/u/a], where the second is
    looked up and not found. *)
Lemma working_directory_is_left_at_entry_witness :
  let a := Args "relative.txt" true false false in
  let o := process_repository "a" prompt_source temp_dir true false false world0 in
  res o = inr processed_ok
  /\ resolve world0 "a" = Some (cwd (final o))
  /\ cwd world0 = ["home"; "u"]
  /\ cwd (final o) = ["home"; "u"; "a"]
  /\ final (process_all ["a"; "b"] 1 2 prompt_source temp_dir a 0 0 world0)
     = final (process_all ["b"] 2 2 prompt_source temp_dir a 1 0 (final o))
  /\ res (process_repository "b" prompt_source temp_dir true false false (final o))
     = inr (false, "Directory not found: b")
  /\ res (process_repository "b" prompt_source temp_dir true false false world0)
     = inr processed_ok.
Proof.
  cbv zeta.
  assert (R : res (process_repository "a" prompt_source temp_dir true false false world0)
              = inr processed_ok)
    by evaluated.
  destruct (SimFacts.working_directory_is_left_at_entry
              "a" ["b"] prompt_source temp_dir (Args "relative.txt" true false false)
              1 2 0 0 world0 eq_refl R) as (C & N).
  split; [exact R |]. split; [exact C |]. split; [reflexivity |]. split; [evaluated |].
  split; [exact N |]. split; evaluated.
Defined.

(** The second run on [/work/repo]: [git commit] fails, and the
    entry announces the commit and succeeds. *)
Lemma commit_result_is_ignored_witness :
  let o := commit_entry "/work/repo" (restart (final first_run)) in
  In (Did (git_add_call (target_file_of "/work/repo")) RYes) (log o)
  /\ no_raise (log o) = true
  /\ In (Did git_commit_call RNo) (log o)
  /\ res o = inr processed_ok
  /\ In committed_line (log o).
Proof.
  cbv zeta. unfold commit_entry.
  assert (A : In (Did (git_add_call (target_file_of "/work/repo")) RYes)
                 (log (process_repository "/work/repo" prompt_source temp_dir
                                          true false false (restart (final first_run)))))
    by in_log.
  assert (NR : no_raise (log (process_repository "/work/repo" prompt_source temp_dir
                                                 true false false
                                                 (restart (final first_run)))) = true)
    by evaluated.
  pose proof (commit_result_is_ignored "/work/repo" prompt_source temp_dir true false false
                                       (restart (final first_run))
                                       (target_file_of "/work/repo") RYes A NR)
    as (R & C & _).
  split; [exact A |]. split; [exact NR |]. split; [in_log |].
  split; [exact R | exact C].
Defined.

(** The linked worktree [/work/wt]: its [.git] is a file, and the
    entry is rejected. *)
Lemma local_entry_needs_git_directory_witness :
  is_remote_url "/work/wt" = false
  /\ os_path_isdir "/work/wt" world0 = true
  /\ os_path_isfile (OsPath.join "/work/wt" ".git") world0 = true
  /\ os_path_isdir (OsPath.join "/work/wt" ".git") world0 = false
  /\ res (plain_entry "/work/wt" world0) = inr (false, "Not a git repository: /work/wt").
Proof.
  assert (D : os_path_isdir "/work/wt" world0 = true) by evaluated.
  assert (G : os_path_isdir (OsPath.join "/work/wt" ".git") world0 = false) by evaluated.
  split; [reflexivity |]. split; [exact D |]. split; [evaluated |]. split; [exact G |].
  exact (proj2 (local_entry_needs_git_directory "/work/wt" prompt_source temp_dir
                                                false false false world0 eq_refl D) G).
Defined.

End OnScenario.

(** ** More on one entry *)

Section EntryFacts.

Context {W : Type} {H : Host W}.

(** A log that ends with the call that raised [e], nothing having
    raised before. *)
Lemma raised_last (l : list item) c e :
  last l (Print "") = Did c (RRaise e) ->
  no_raise (removelast l) = true ->
  exists l0, l = (l0 ++ [Did c (RRaise e)])%list /\ no_raise l0 = true.
Proof.
  intros L N. exists (removelast l). split; [| exact N].
  rewrite <- L. apply app_removelast_last. intros ->. discriminate L.
Qed.

Lemma raised_last_app (l1 l2 l0 : list item) c e :
  no_raise l1 = true ->
  l2 = (l0 ++ [Did c (RRaise e)])%list -> no_raise l0 = true ->
  exists l, (l1 ++ l2 = l ++ [Did c (RRaise e)])%list /\ no_raise l = true.
Proof.
  intros N1 -> N0. exists (l1 ++ l0)%list. split; [apply app_assoc |].
  now rewrite no_raise_app, N1, N0.
Qed.

Ltac ends_raising :=
  intros R; try discriminate R; injection R as <-;
  eexists; apply raised_last; reflexivity.

Lemma determine_local_path_raised repo_path temp_dir dry_run w e :
  res (determine_local_path repo_path temp_dir dry_run w) = inl e ->
  exists c l0, log (determine_local_path repo_path temp_dir dry_run w)
               = (l0 ++ [Did c (RRaise e)])%list /\ no_raise l0 = true.
Proof. run_script; ends_raising. Qed.

Lemma deploy_prompt_raised claude_dir prompt_source target_file dry_run w e :
  res (deploy_prompt claude_dir prompt_source target_file dry_run w) = inl e ->
  exists c l0, log (deploy_prompt claude_dir prompt_source target_file dry_run w)
               = (l0 ++ [Did c (RRaise e)])%list /\ no_raise l0 = true.
Proof. run_script; ends_raising. Qed.

Lemma git_operations_raised local_path target_file do_push dry_run w e :
  res (git_operations local_path target_file do_push dry_run w) = inl e ->
  exists c l0, log (git_operations local_path target_file do_push dry_run w)
               = (l0 ++ [Did c (RRaise e)])%list /\ no_raise l0 = true.
Proof. run_script; ends_raising. Qed.

Lemma determine_local_path_returned repo_path temp_dir dry_run w v :
  res (determine_local_path repo_path temp_dir dry_run w) = inr v ->
  no_raise (log (determine_local_path repo_path temp_dir dry_run w)) = true.
Proof. run_script; intros R; try discriminate R; reflexivity. Qed.

Lemma deploy_prompt_returned claude_dir prompt_source target_file dry_run w v :
  res (deploy_prompt claude_dir prompt_source target_file dry_run w) = inr v ->
  no_raise (log (deploy_prompt claude_dir prompt_source target_file dry_run w)) = true.
Proof. run_script; intros R; try discriminate R; reflexivity. Qed.

Lemma git_operations_returned local_path target_file do_push dry_run w v :
  res (git_operations local_path target_file do_push dry_run w) = inr v ->
  no_raise (log (git_operations local_path target_file do_push dry_run w)) = true.
Proof. run_script; intros R; try discriminate R; reflexivity. Qed.

(** X1.  [process_repository] raises exactly what a host call raised,
    and right after it: the log ends with the call that raised, no
    call before it raised, and when the entry returns a pair no call
    raised at all. *)
Theorem exception_comes_from_last_call
        repo_path prompt_source temp_dir do_commit do_push dry_run w :
  let o := process_repository repo_path prompt_source temp_dir
                              do_commit do_push dry_run w in
  (forall e, res o = inl e ->
             exists c l0, log o = (l0 ++ [Did c (RRaise e)])%list /\ no_raise l0 = true)
  /\ (forall v, res o = inr v -> no_raise (log o) = true).
Proof.
  cbv zeta. rewrite process_repository_stages. cbv zeta.
  destruct (res (determine_local_path repo_path temp_dir dry_run w))
    as [e1 | [early | lp]] eqn:R1; cbn [res final log].
  - split; [| discriminate]. intros e [= <-].
    now apply determine_local_path_raised.
  - split; [discriminate |]. intros v _.
    eapply determine_local_path_returned; eassumption.
  - apply determine_local_path_returned in R1.
    destruct (res (deploy_prompt _ _ _ _ _)) as [e2 | []] eqn:R2; cbn [res final log].
    + split; [| discriminate]. intros e [= <-].
      destruct (deploy_prompt_raised _ _ _ _ _ _ R2) as (c & l0 & E & N).
      exists c. eapply raised_last_app; eassumption.
    + apply deploy_prompt_returned in R2.
      destruct do_commit.
      * destruct (res (git_operations _ _ _ _ _)) as [e3 | []] eqn:R3; cbn [res final log].
        -- split; [| discriminate]. intros e [= <-].
           destruct (git_operations_raised _ _ _ _ _ _ R3) as (c & l0 & E & N).
           exists c. rewrite app_assoc.
           eapply raised_last_app; [| eassumption | eassumption].
           now rewrite no_raise_app, R1, R2.
        -- split; [discriminate |]. intros v _.
           apply git_operations_returned in R3.
           now rewrite !no_raise_app, R1, R2, R3.
      * unfold ret. cbn [res final log]. split; [discriminate |]. intros v _.
        now rewrite app_nil_r, no_raise_app, R1, R2.
Qed.

End EntryFacts.

Section EntryCalls.

Context {W : Type} {H : Host W}.

(** X2.  when [git clone] exits with an error, the entry ends there: it
    returns the failure pair, in the world the clone left, and has
    made no other call. *)
Theorem failed_clone_ends_entry
        repo_path prompt_source temp_dir do_commit do_push w stderr w' :
  is_remote_url repo_path = true ->
  subprocess_run ["git"; "clone"; repo_path; local_path_of repo_path temp_dir] w
  = (CalledProcessError stderr, w') ->
  process_repository repo_path prompt_source temp_dir do_commit do_push false w
  = Outcome (inr (false, "Failed to clone repository")) w'
            [ Print "  Cloning repository...";
              Did (CRun ["git"; "clone"; repo_path; local_path_of repo_path temp_dir]) RNo ].
Proof.
  intros R C. rewrite process_repository_stages. cbv zeta.
  unfold local_path_of in C. rewrite R in C.
  unfold determine_local_path, clone_repository, run_command, print, bind, ret.
  unfold local_path_of. rewrite R, C. reflexivity.
Qed.

(** X3.  without [--commit] the entry never changes directory and runs
    no [git] command on the working copy: its only calls are the two
    directory checks, the clone, [os.makedirs] and [shutil.copy2]. *)
Theorem no_commit_no_git
        repo_path prompt_source temp_dir do_push dry_run w c r :
  In (Did c r) (log (process_repository repo_path prompt_source temp_dir
                                        false do_push dry_run w)) ->
  (exists q, c = CIsDir q)
  \/ c = CRun ["git"; "clone"; repo_path; local_path_of repo_path temp_dir]
  \/ c = CMakedirs (claude_dir_of (local_path_of repo_path temp_dir))
  \/ c = CCopy2 prompt_source (target_file_of (local_path_of repo_path temp_dir)).
Proof.
  rewrite process_repository_stages. cbv zeta.
  destruct (res (determine_local_path repo_path temp_dir dry_run w))
    as [e1 | [early | lp]] eqn:R1; cbn [res final log].
  1, 2: intros HIn; apply determine_local_path_calls in HIn as [Q | [_ ->]]; auto.
  assert (L : lp = local_path_of repo_path temp_dir).
  { revert R1. unfold local_path_of.
    run_script; intros R; try discriminate R; now injection R as <-. }
  subst lp.
  destruct (res (deploy_prompt _ _ _ _ _)) as [e2 | []]; cbn [res final log ret];
    intros HIn; apply in_app_or in HIn as [HIn | HIn].
  - apply determine_local_path_calls in HIn as [Q | [_ ->]]; auto.
  - apply deploy_prompt_calls in HIn as [_ [-> | ->]]; auto.
  - apply determine_local_path_calls in HIn as [Q | [_ ->]]; auto.
  - apply in_app_or in HIn as [HIn | []].
    apply deploy_prompt_calls in HIn as [_ [-> | ->]]; auto.
Qed.

End EntryCalls.

Section EntryResults.

Context {W : Type} {H : Host W}.

(** The pairs the first block returns early, and what it has done
    by then. *)
Lemma determine_local_path_early repo_path temp_dir dry_run w early :
  res (determine_local_path repo_path temp_dir dry_run w) = inr (inl early) ->
  let o := determine_local_path repo_path temp_dir dry_run w in
  (is_remote_url repo_path = true /\ dry_run = false
   /\ early = (false, "Failed to clone repository")
   /\ In (Did (CRun ["git"; "clone"; repo_path; local_path_of repo_path temp_dir]) RNo)
         (log o))
  \/ (is_remote_url repo_path = false /\ final o = w
      /\ os_path_isdir repo_path w = false
      /\ early = (false, "Directory not found: " ++ repo_path))
  \/ (is_remote_url repo_path = false /\ final o = w
      /\ os_path_isdir repo_path w = true
      /\ os_path_isdir (OsPath.join repo_path ".git") w = false
      /\ early = (false, "Not a git repository: " ++ repo_path)).
Proof.
  unfold local_path_of.
  run_script; intros R; try discriminate R; injection R as <-; cbv zeta;
    cbn [res final log]; auto 10.
  left. repeat split; auto. simpl. auto.
Qed.

(** The later blocks return nothing but the success pair. *)
Lemma process_repository_failure repo_path prompt_source temp_dir do_commit do_push dry_run w m :
  res (process_repository repo_path prompt_source temp_dir do_commit do_push dry_run w)
  = inr (false, m) ->
  res (determine_local_path repo_path temp_dir dry_run w) = inr (inl (false, m))
  /\ process_repository repo_path prompt_source temp_dir do_commit do_push dry_run w
     = Outcome (inr (false, m))
               (final (determine_local_path repo_path temp_dir dry_run w))
               (log (determine_local_path repo_path temp_dir dry_run w)).
Proof.
  rewrite process_repository_stages. cbv zeta.
  destruct (res (determine_local_path repo_path temp_dir dry_run w))
    as [e1 | [early | lp]]; cbn [res final log]; try discriminate.
  - intros [= ->]. split; reflexivity.
  - destruct (res (deploy_prompt _ _ _ _ _)) as [e2 | []]; cbn [res]; [discriminate |].
    destruct (res _); discriminate.
Qed.

(** X4.  an entry is reported failed for one of three reasons only: the
    clone failed, the local path is not a directory, or it has no
    [.git] directory.  A local entry that failed has left the world
    as it was, and no failed entry has created a directory, copied a
    file, changed directory or run [git] on a working copy. *)
Theorem failed_entry_has_changed_nothing
        repo_path prompt_source temp_dir do_commit do_push dry_run w m :
  let o := process_repository repo_path prompt_source temp_dir
                              do_commit do_push dry_run w in
  res o = inr (false, m) ->
  ((is_remote_url repo_path = true /\ dry_run = false
    /\ m = "Failed to clone repository"
    /\ In (Did (CRun ["git"; "clone"; repo_path; local_path_of repo_path temp_dir]) RNo)
          (log o))
   \/ (is_remote_url repo_path = false /\ final o = w
       /\ os_path_isdir repo_path w = false
       /\ m = "Directory not found: " ++ repo_path)
   \/ (is_remote_url repo_path = false /\ final o = w
       /\ os_path_isdir repo_path w = true
       /\ os_path_isdir (OsPath.join repo_path ".git") w = false
       /\ m = "Not a git repository: " ++ repo_path))
  /\ forall c r, In (Did c r) (log o) ->
                 (exists q, c = CIsDir q)
                 \/ c = CRun ["git"; "clone"; repo_path; local_path_of repo_path temp_dir].
Proof.
  cbv zeta. intros R.
  destruct (process_repository_failure _ _ _ _ _ _ _ _ R) as [R1 ->].
  cbn [res final log]. split.
  - destruct (determine_local_path_early _ _ _ _ _ R1)
      as [(A & B & C & D) | [(A & B & C & D) | (A & B & C & D & E)]].
    + left. injection C as ->. auto.
    + right; left. injection D as ->. auto.
    + right; right. injection E as ->. auto 6.
  - intros c r HIn. apply determine_local_path_calls in HIn as [Q | [_ ->]]; auto.
Qed.

End EntryResults.

Section EntryOutput.

Context {W : Type} {H : Host W}.

Lemma determine_local_path_no_push_line repo_path temp_dir dry_run w :
  ~ In would_push_line (log (determine_local_path repo_path temp_dir dry_run w))
  /\ ~ In pushing_line (log (determine_local_path repo_path temp_dir dry_run w)).
Proof.
  unfold would_push_line, pushing_line.
  run_script; split; intros HIn; absurd_in HIn.
Qed.

Lemma deploy_prompt_no_push_line claude_dir prompt_source target_file dry_run w :
  ~ In would_push_line (log (deploy_prompt claude_dir prompt_source target_file dry_run w))
  /\ ~ In pushing_line (log (deploy_prompt claude_dir prompt_source target_file dry_run w)).
Proof.
  unfold would_push_line, pushing_line.
  run_script; split; intros HIn; absurd_in HIn.
Qed.

Lemma git_operations_push_lines local_path target_file do_push dry_run w :
  ~ In would_push_line (log (git_operations local_path target_file do_push dry_run w))
  /\ (In pushing_line (log (git_operations local_path target_file do_push dry_run w)) ->
      dry_run = false /\ do_push = true).
Proof.
  unfold would_push_line, pushing_line.
  run_script; split; intros HIn; absurd_in HIn; auto.
Qed.

(** X5.  the line [[DRY RUN] Would push to remote] is never printed:
    the test that guards it (line 159) lies in the branch taken only
    outside a dry run.  A dry run with [--push] does not mention the
    push at all: [Pushing changes...] is printed only with commit and
    push requested outside a dry run. *)
Theorem dry_run_push_is_never_described
        repo_path prompt_source temp_dir do_commit do_push dry_run w :
  let o := process_repository repo_path prompt_source temp_dir
                              do_commit do_push dry_run w in
  ~ In would_push_line (log o)
  /\ (In pushing_line (log o) -> dry_run = false /\ do_commit = true /\ do_push = true).
Proof.
  cbv zeta. rewrite process_repository_stages. cbv zeta.
  pose proof (determine_local_path_no_push_line repo_path temp_dir dry_run w) as [A1 B1].
  destruct (res (determine_local_path repo_path temp_dir dry_run w))
    as [e1 | [early | lp]]; cbn [res final log].
  1, 2: split; [exact A1 | intros HIn; now apply B1 in HIn].
  pose proof (deploy_prompt_no_push_line
                (OsPath.join3 lp ".claude" "commands") prompt_source (target_file_of lp)
                dry_run (final (determine_local_path repo_path temp_dir dry_run w)))
    as [A2 B2].
  destruct (res (deploy_prompt _ _ _ _ _)) as [e2 | []]; cbn [res final log].
  - split; intros HIn; apply in_app_or in HIn as [HIn | HIn]; tauto.
  - destruct do_commit.
    + pose proof (git_operations_push_lines
                    lp (target_file_of lp) do_push dry_run
                    (final (deploy_prompt (OsPath.join3 lp ".claude" "commands")
                                          prompt_source (target_file_of lp) dry_run
                                          (final (determine_local_path repo_path temp_dir
                                                                       dry_run w)))))
        as [A3 B3].
      split; intros HIn; apply in_app_or in HIn as [HIn | HIn]; try tauto;
        apply in_app_or in HIn as [HIn | HIn]; try tauto.
    + unfold ret. cbn [log].
      split; intros HIn; apply in_app_or in HIn as [HIn | HIn]; try tauto;
        apply in_app_or in HIn as [HIn | []]; tauto.
Qed.

Lemma deploy_prompt_done claude_dir prompt_source target_file w :
  res (deploy_prompt claude_dir prompt_source target_file false w) = inr tt ->
  exists l1 l2 l3,
    log (deploy_prompt claude_dir prompt_source target_file false w)
    = (l1 ++ Did (CMakedirs claude_dir) RYes
          :: l2 ++ Did (CCopy2 prompt_source target_file) RYes :: l3)%list.
Proof.
  run_script; intros R; try discriminate R.
  exists [Print "  Creating .claude/commands directory..."].
  eexists [_; _]. eexists [_]. reflexivity.
Qed.

(** X6.  outside a dry run, an entry is reported successful only after
    [os.makedirs] on its [.claude/commands] and then [shutil.copy2] of
    the prompt onto its [review-docs.md] have both returned. *)
Theorem success_follows_directory_and_copy
        repo_path prompt_source temp_dir do_commit do_push w m :
  let o := process_repository repo_path prompt_source temp_dir
                              do_commit do_push false w in
  let local_path := local_path_of repo_path temp_dir in
  res o = inr (true, m) ->
  m = "Repository processed successfully"
  /\ exists l1 l2 l3,
      log o = (l1 ++ Did (CMakedirs (claude_dir_of local_path)) RYes
                  :: l2 ++ Did (CCopy2 prompt_source (target_file_of local_path)) RYes
                  :: l3)%list.
Proof.
  cbv zeta. rewrite process_repository_stages. cbv zeta.
  destruct (res (determine_local_path repo_path temp_dir false w))
    as [e1 | [early | lp]] eqn:R1; cbn [res final log]; try discriminate.
  - intros [= ->]. exfalso. revert R1.
    run_script; intros R; discriminate R.
  - assert (L : lp = local_path_of repo_path temp_dir).
    { revert R1. unfold local_path_of.
      run_script; intros R; try discriminate R; now injection R as <-. }
    subst lp.
    destruct (res (deploy_prompt _ _ _ _ _)) as [e2 | []] eqn:R2; cbn [res final log];
      [discriminate |].
    destruct (deploy_prompt_done _ _ _ _ R2) as (l1 & l2 & l3 & E).
    intros R. split.
    + destruct (res _) in R; [discriminate |]. now injection R as <-.
    + rewrite E. unfold claude_dir_of.
      exists (log (determine_local_path repo_path temp_dir false w) ++ l1)%list, l2.
      eexists. rewrite <- !app_assoc. cbn [app]. rewrite <- app_assoc. reflexivity.
Qed.

End EntryOutput.

(** ** The list file and the names of the clones *)

Lemma has_char_app c a b : has_char c (a ++ b) = has_char c a || has_char c b.
Proof.
  induction a as [| d a IH]; [reflexivity |].
  cbn [append has_char]. now rewrite IH, orb_assoc.
Qed.

Lemma after_last_slash_no_slash s : forall acc,
  has_char "/" acc = false -> has_char "/" (PyStr.after_last_slash s acc) = false.
Proof.
  induction s as [| c rest IH]; intros acc A; cbn [PyStr.after_last_slash]; [exact A |].
  destruct (Ascii.eqb c "/") eqn:E; apply IH; [reflexivity |].
  rewrite has_char_app, A. cbn [has_char]. now rewrite E.
Qed.

Lemma after_last_slash_trailing s : forall acc,
  PyStr.ends_with_char s "/" = true -> PyStr.after_last_slash s acc = "".
Proof.
  induction s as [| c rest IH]; intros acc E; [discriminate E |].
  cbn [PyStr.after_last_slash]. destruct rest as [| d rest'].
  - cbn [PyStr.ends_with_char] in E. now rewrite E.
  - assert (E' : PyStr.ends_with_char (String d rest') "/" = true) by exact E.
    destruct (Ascii.eqb c "/"); now apply IH.
Qed.

Lemma replace_from_no_char c old s : forall skip,
  has_char c s = false -> has_char c (PyStr.replace_from skip old "" s) = false.
Proof.
  induction s as [| d rest IH]; intros skip A; [reflexivity |].
  cbn [has_char] in A. apply orb_false_elim in A as [A1 A2].
  cbn [PyStr.replace_from]. destruct skip as [| k]; [| now apply IH].
  destruct (String.prefix old (String d rest)).
  - cbn [append]. now apply IH.
  - cbn [has_char]. rewrite A1. now apply IH.
Qed.

Lemma prefix_app a b : String.prefix a (a ++ b) = true.
Proof.
  induction a as [| c a IH]; [now destruct b |].
  cbn [append String.prefix]. now destruct (ascii_dec c c).
Qed.

Lemma join_relative a b :
  has_char "/" b = false ->
  String.prefix a (OsPath.join a b) = true
  /\ (OsPath.join a b = a ++ b \/ OsPath.join a b = a ++ "/" ++ b).
Proof.
  intros N. unfold OsPath.join, PyStr.startswith.
  assert (S : String.prefix "/" b = false).
  { destruct b as [| c b]; [reflexivity |].
    cbn [has_char] in N. apply orb_false_elim in N as [N _].
    cbn [String.prefix]. destruct (ascii_dec "/" c) as [<- | _]; [discriminate N |].
    reflexivity. }
  rewrite S. destruct (_ || _); split; auto using prefix_app.
Qed.

Section CloneDirectory.

Context {W : Type} {H : Host W}.

(** Outside a dry run a remote entry starts with the clone. *)
Lemma clone_is_called repo_url prompt_source temp_dir do_commit do_push w :
  is_remote_url repo_url = true ->
  exists r,
    In (Did (CRun ["git"; "clone"; repo_url; local_path_of repo_url temp_dir]) r)
       (log (process_repository repo_url prompt_source temp_dir do_commit do_push false w)).
Proof.
  intros R. rewrite process_repository_stages. cbv zeta.
  assert (A : exists r,
             In (Did (CRun ["git"; "clone"; repo_url; local_path_of repo_url temp_dir]) r)
                (log (determine_local_path repo_url temp_dir false w))).
  { unfold local_path_of. rewrite R. unfold_script. rewrite R.
    repeat (split_on_host; unfold_script); eexists; simpl; eauto. }
  destruct A as [r A]. exists r.
  destruct (res (determine_local_path repo_url temp_dir false w)) as [e | [early | lp]];
    cbn [res final log]; try exact A.
  destruct (res (deploy_prompt _ _ _ _ _)); cbn [res final log];
    apply in_or_app; now left.
Qed.

(** X8.  the directory of a clone is the temporary directory followed by
    one name, in which there is no [/]: the last component of the URL
    without its [.git]s.  For a URL that ends with [/] that name is
    empty, and the clone is made into the temporary directory itself. *)
Theorem clone_directory_is_under_temp_dir
        repo_url prompt_source temp_dir do_commit do_push w :
  is_remote_url repo_url = true ->
  let name := PyStr.replace (OsPath.basename repo_url) ".git" "" in
  let o := process_repository repo_url prompt_source temp_dir do_commit do_push false w in
  (exists r, In (Did (CRun ["git"; "clone"; repo_url; local_path_of repo_url temp_dir]) r)
                (log o))
  /\ has_char "/" name = false
  /\ String.prefix temp_dir (local_path_of repo_url temp_dir) = true
  /\ (local_path_of repo_url temp_dir = temp_dir ++ name
      \/ local_path_of repo_url temp_dir = temp_dir ++ "/" ++ name)
  /\ (PyStr.ends_with_char repo_url "/" = true -> name = "").
Proof.
  intros R name o. split; [now apply clone_is_called |].
  unfold local_path_of. rewrite R.
  assert (N : has_char "/" name = false).
  { apply replace_from_no_char. now apply after_last_slash_no_slash. }
  destruct (join_relative temp_dir name N) as [P J].
  split; [exact N |]. split; [exact P |]. split; [exact J |].
  intros E. subst name. unfold OsPath.basename.
  now rewrite after_last_slash_trailing.
Qed.

End CloneDirectory.

(** ** More on [main] *)

Section MainFacts.

Context {W : Type} {H : Host W}.

Lemma attempts_length prompt_source temp_dir a repos (w : W) flags w' :
  attempts prompt_source temp_dir a repos w flags w' ->
  length flags = length repos
  /\ length (filter (fun b => b) flags) + length (filter negb flags) = length repos.
Proof.
  induction 1 as [w | repo_path rest w success message w1 l1 flags w2 R A [IH1 IH2]];
    [split; reflexivity |].
  split; [cbn; now rewrite IH1 |].
  destruct success; cbn [filter negb length]; lia.
Qed.

(** What [main] does once the list is read and the temporary directory
    created: it runs the loop, then the cleanup, whatever the loop
    did. *)
Lemma main_loop_and_cleanup parsed prompt_source w lines temp_dir w1 :
  let a := effective parsed in
  let repos := entries_of lines in
  let loop := process_all repos 1 (length repos) prompt_source temp_dir a 0 0 w1 in
  let o := main parsed prompt_source w in
  os_path_isfile (repo_list a) w = true ->
  os_path_isfile prompt_source w = true ->
  open_lines (repo_list a) w = inr lines ->
  repos <> [] ->
  tempfile_create w = inr (temp_dir, w1) ->
  exists header rest,
    log o = (header ++ Did CMkdtemp RYes
                    :: log loop
                    ++ Did (CCleanup temp_dir)
                           (match tempfile_cleanup temp_dir (final loop) with
                            | inl e => RRaise e
                            | inr _ => RYes
                            end) :: rest)%list
    /\ (forall c r, In (Did c r) header -> query_call c = true)
    /\ (~ In completed_line header /\ forall n, ~ In (failed_line n) header)
    /\ match tempfile_cleanup temp_dir (final loop), res loop with
       | inl e, _ => res o = inl e /\ rest = []
       | inr w3, inl e => res o = inl e /\ final o = w3 /\ rest = []
       | inr w3, inr (s, f) =>
           final o = w3
           /\ res o = (if Nat.ltb 0 f then inl (SystemExit 1) else inr tt)
           /\ In (total_line (length repos)) rest
           /\ In (successful_line s) rest
           /\ (0 < f -> In (failed_line f) rest)
           /\ (forall n, In (failed_line n) rest -> 0 < f)
           /\ (In completed_line rest <-> f = 0)
       end.
Proof.
  cbv zeta. unfold main. cbv zeta. generalize (effective parsed) as a. intros a.
  unfold entries_of, isfile, read_repo_list, print_colored, print, sys_exit, raise, bind.
  intros L P O E T.
  rewrite L. cbn. rewrite P. cbn. rewrite O. cbv beta iota.
  destruct (filter keep_line (map PyStr.strip lines)) as [| r0 rest0] eqn:F;
    [contradiction |].
  unfold with_temporary_directory, finally, perform, ret. rewrite T.
  destruct (process_all (r0 :: rest0) 1 (length (r0 :: rest0)) prompt_source temp_dir a 0 0 w1)
    as [r wl ll].
  cbn [res final log].
  destruct (tempfile_cleanup temp_dir wl) as [e | w3]; [| destruct r as [e | [s f]]];
    [ | | destruct f as [| f']; destruct (dry_run a)];
    cbn [res final log app]; cbv beta iota;
    eexists [_; _; _; _; _; _; _; _; _; _; _; _; _; _]; eexists;
    (split; [cbn [app]; rewrite <- ?app_assoc; cbn [app]; reflexivity |]);
    (split; [intros c r' HIn; absurd_in HIn; injection HIn as <- _; reflexivity |]);
    unfold total_line, successful_line, failed_line, completed_line;
    (split; [split; [intros X | intros n X]; absurd_in X |]).
  1, 2: repeat split.
  all: split; [reflexivity |]; split; [reflexivity |].
  all: split; [simpl; auto 20 |]; split; [simpl; auto 20 |].
  all: split; [intros X; try lia; simpl; auto 20 |].
  all: split; [intros n X; try lia; exfalso; absurd_in X |].
  all: split; intros X; try lia; try (simpl; auto 20; fail);
    exfalso; absurd_in X.
Qed.

End MainFacts.

Section Summary.

Context {W : Type} {H : Host W}.

(** The lines of the summary are not among those an entry prints. *)
Lemma determine_local_path_no_summary repo_path temp_dir dry_run w :
  ~ In completed_line (log (determine_local_path repo_path temp_dir dry_run w))
  /\ forall n, ~ In (failed_line n) (log (determine_local_path repo_path temp_dir dry_run w)).
Proof.
  unfold completed_line, failed_line.
  run_script; (split; [intros X | intros n X]); absurd_in X.
Qed.

Lemma deploy_prompt_no_summary claude_dir prompt_source target_file dry_run w :
  ~ In completed_line (log (deploy_prompt claude_dir prompt_source target_file dry_run w))
  /\ forall n, ~ In (failed_line n)
                    (log (deploy_prompt claude_dir prompt_source target_file dry_run w)).
Proof.
  unfold completed_line, failed_line.
  run_script; (split; [intros X | intros n X]); absurd_in X.
Qed.

Lemma git_operations_no_summary local_path target_file do_push dry_run w :
  ~ In completed_line (log (git_operations local_path target_file do_push dry_run w))
  /\ forall n, ~ In (failed_line n)
                    (log (git_operations local_path target_file do_push dry_run w)).
Proof.
  unfold completed_line, failed_line.
  run_script; (split; [intros X | intros n X]); absurd_in X.
Qed.

Lemma process_repository_no_summary
      repo_path prompt_source temp_dir do_commit do_push dry_run w i :
  i = completed_line \/ (exists n, i = failed_line n) ->
  ~ In i (log (process_repository repo_path prompt_source temp_dir
                                  do_commit do_push dry_run w)).
Proof.
  intros I.
  assert (S : forall l, (~ In completed_line l /\ forall n, ~ In (failed_line n) l) ->
                        ~ In i l).
  { intros l [C F]. destruct I as [-> | [n ->]]; auto. }
  rewrite process_repository_stages. cbv zeta.
  pose proof (S _ (determine_local_path_no_summary repo_path temp_dir dry_run w)) as A1.
  destruct (res (determine_local_path repo_path temp_dir dry_run w))
    as [e1 | [early | lp]]; cbn [res final log]; try exact A1.
  pose proof (S _ (deploy_prompt_no_summary
                     (OsPath.join3 lp ".claude" "commands") prompt_source
                     (target_file_of lp) dry_run
                     (final (determine_local_path repo_path temp_dir dry_run w)))) as A2.
  destruct (res (deploy_prompt _ _ _ _ _)) as [e2 | []]; cbn [res final log].
  - intros X. apply in_app_or in X as [X | X]; tauto.
  - destruct do_commit.
    + pose proof (S _ (git_operations_no_summary
                         lp (target_file_of lp) do_push dry_run
                         (final (deploy_prompt (OsPath.join3 lp ".claude" "commands")
                                               prompt_source (target_file_of lp) dry_run
                                               (final (determine_local_path
                                                         repo_path temp_dir dry_run w))))))
        as A3.
      intros X. apply in_app_or in X as [X | X]; [tauto |].
      apply in_app_or in X as [X | X]; tauto.
    + unfold ret. cbn [log]. intros X. apply in_app_or in X as [X | X]; [tauto |].
      apply in_app_or in X as [X | []]. tauto.
Qed.

Lemma process_all_no_summary repos : forall idx total_repos prompt_source temp_dir a s f w i,
  i = completed_line \/ (exists n, i = failed_line n) ->
  ~ In i (log (process_all repos idx total_repos prompt_source temp_dir a s f w)).
Proof.
  induction repos as [| repo_path rest IH];
    intros idx total_repos prompt_source temp_dir a s f w i I.
  - intros [].
  - rewrite process_all_cons. cbv zeta.
    pose proof (process_repository_no_summary
                  repo_path prompt_source temp_dir (commit a) (push a) (dry_run a) w i I)
      as A.
    assert (Hd : forall l, ~ In i l ->
                           ~ In i ([Print (Colors.BLUE ++ PyStr.times "-" 50 ++ Colors.NC);
                                    processing_line idx total_repos repo_path] ++ l)%list).
    { intros l N X. unfold processing_line in X. cbn [app] in X.
      destruct X as [X | [X | X]]; [| | tauto];
        destruct I as [-> | [n ->]]; unfold completed_line, failed_line in X;
        discriminate X. }
    destruct (res (process_repository _ _ _ _ _ _ w)) as [e | [[|] message]];
      cbn [res final log]; apply Hd; [exact A | |];
      intros X; apply in_app_or in X as [X | [X | X]]; try tauto;
      try (now apply IH in X);
      destruct I as [-> | [n ->]]; unfold completed_line, failed_line in X;
      discriminate X.
Qed.

End Summary.

Section MainResults.

Context {W : Type} {H : Host W}.

(** X12.  [main] prints [Deployment completed successfully!] exactly when
    it returns instead of exiting or raising, on every host and for
    every command line: never after an entry failed or a call
    raised. *)
Theorem completion_line_means_success parsed prompt_source w :
  In completed_line (log (main parsed prompt_source w))
  <-> res (main parsed prompt_source w) = inr tt.
Proof.
  destruct (os_path_isfile (repo_list (effective parsed)) w) eqn:L.
  2: { unfold main. cbv zeta.
       unfold isfile, print_colored, print, sys_exit, raise, bind. rewrite L.
       cbn [negb res final log app]. unfold completed_line.
       split; intros X; [absurd_in X | discriminate X]. }
  destruct (os_path_isfile prompt_source w) eqn:P.
  2: { unfold main. cbv zeta.
       unfold isfile, print_colored, print, sys_exit, raise, bind. rewrite L.
       cbn [negb res final log app]. rewrite P.
       cbn [negb res final log app]. unfold completed_line.
       split; intros X; [absurd_in X | discriminate X]. }
  destruct (open_lines (repo_list (effective parsed)) w) as [e | lines] eqn:O.
  { unfold main. cbv zeta.
    unfold isfile, read_repo_list, print_colored, print, sys_exit, raise, bind.
    rewrite L. cbn [negb res final log app]. rewrite P.
    cbn [negb res final log app]. rewrite O.
    cbn [negb res final log app]. unfold completed_line.
    split; intros X; [absurd_in X | discriminate X]. }
  destruct (entries_of lines) as [| r0 rest0] eqn:E.
  { unfold main. cbv zeta. unfold entries_of in E.
    unfold isfile, read_repo_list, print_colored, print, sys_exit, raise, bind.
    rewrite L. cbn [negb res final log app]. rewrite P.
    cbn [negb res final log app]. rewrite O, E.
    cbn [negb res final log app]. unfold completed_line.
    split; intros X; [absurd_in X | discriminate X]. }
  destruct (tempfile_create w) as [e | [temp_dir w1]] eqn:T.
  { unfold main. cbv zeta. unfold entries_of in E.
    unfold isfile, read_repo_list, print_colored, print, sys_exit, raise, bind.
    rewrite L. cbn [negb res final log app]. rewrite P.
    cbn [negb res final log app]. rewrite O, E.
    cbn [negb res final log app]. unfold with_temporary_directory. rewrite T.
    cbn [negb res final log app]. unfold completed_line.
    split; intros X; [absurd_in X | discriminate X]. }
  assert (NE : entries_of lines <> []) by now rewrite E.
  destruct (main_loop_and_cleanup parsed prompt_source w lines temp_dir w1 L P O NE T)
    as (header & rest & Lg & _ & [Hd _] & R).
  pose proof (process_all_no_summary
                (entries_of lines) 1 (length (entries_of lines)) prompt_source temp_dir
                (effective parsed) 0 0 w1 completed_line (or_introl eq_refl)) as N.
  assert (K : In completed_line (log (main parsed prompt_source w))
              <-> In completed_line rest).
  { rewrite Lg. split.
    - intros X. apply in_app_or in X as [X | [X | X]]; [tauto | discriminate X |].
      apply in_app_or in X as [X | [X | X]]; [tauto | discriminate X | exact X].
    - intros X. apply in_or_app. right. right. apply in_or_app. right. now right. }
  rewrite K.
  destruct (tempfile_cleanup temp_dir _) as [e | w3].
  { destruct R as [-> ->]. split; [intros [] | discriminate]. }
  destruct (res (process_all _ _ _ _ _ _ _ _ _)) as [e | [s f]].
  { destruct R as (-> & _ & ->). split; [intros [] | discriminate]. }
  destruct R as (_ & -> & _ & _ & _ & _ & C). rewrite C.
  destruct f; cbn; split; intros X; try reflexivity; discriminate X.
Qed.

End MainResults.

(** ** These theorems on the worlds of [Scenario] *)

Module MoreOnScenario.

Import Sim Scenario Runs MoreRuns.

Ltac computed := vm_compute; reflexivity.

Ltac listed := vm_compute; repeat (first [left; reflexivity | right]).

(** [/work/bad]: [os.makedirs] raises, and that is the last thing the
    entry does. *)
Lemma exception_comes_from_last_call_witness :
  res (plain_entry "/work/bad" world0) = inl NotADirectoryError
  /\ exists c l0,
      log (plain_entry "/work/bad" world0) = (l0 ++ [Did c (RRaise NotADirectoryError)])%list
      /\ no_raise l0 = true.
Proof.
  assert (R : res (process_repository "/work/bad" prompt_source temp_dir
                                      false false false world0)
              = inl NotADirectoryError) by computed.
  split; [exact R |].
  exact (proj1 (exception_comes_from_last_call "/work/bad" prompt_source temp_dir
                                               false false false world0)
               NotADirectoryError R).
Defined.

(** No repository answers at [missing_url]. *)
Lemma failed_clone_ends_entry_witness :
  is_remote_url missing_url = true
  /\ subprocess_run ["git"; "clone"; missing_url; local_path_of missing_url temp_dir] world0
     = (CalledProcessError "fatal", world0)
  /\ plain_entry missing_url world0
     = Outcome (inr (false, "Failed to clone repository")) world0
               [ Print "  Cloning repository...";
                 Did (CRun ["git"; "clone"; missing_url; local_path_of missing_url temp_dir])
                     RNo ].
Proof.
  assert (C : subprocess_run ["git"; "clone"; missing_url;
                              local_path_of missing_url temp_dir] world0
              = (CalledProcessError "fatal", world0)) by computed.
  split; [reflexivity |]. split; [exact C |].
  exact (failed_clone_ends_entry missing_url prompt_source temp_dir false false world0
                                 "fatal" world0 eq_refl C).
Defined.

(** The calls of the entry [/work/repo] without [--commit]: here the
    copy. *)
Lemma no_commit_no_git_witness :
  In (Did (CCopy2 prompt_source (target_file_of "/work/repo")) RYes)
     (log (plain_entry "/work/repo" world0))
  /\ ((exists q, CCopy2 prompt_source (target_file_of "/work/repo") = CIsDir q)
      \/ CCopy2 prompt_source (target_file_of "/work/repo")
         = CRun ["git"; "clone"; "/work/repo"; local_path_of "/work/repo" temp_dir]
      \/ CCopy2 prompt_source (target_file_of "/work/repo")
         = CMakedirs (claude_dir_of (local_path_of "/work/repo" temp_dir))
      \/ CCopy2 prompt_source (target_file_of "/work/repo")
         = CCopy2 prompt_source (target_file_of (local_path_of "/work/repo" temp_dir))).
Proof.
  assert (I : In (Did (CCopy2 prompt_source (target_file_of "/work/repo")) RYes)
                 (log (process_repository "/work/repo" prompt_source temp_dir
                                          false false false world0))) by listed.
  split; [exact I |].
  exact (no_commit_no_git "/work/repo" prompt_source temp_dir false false world0 _ _ I).
Defined.

(** [/work/plain] is not under version control. *)
Lemma failed_entry_has_changed_nothing_witness :
  res (plain_entry "/work/plain" world0) = inr (false, "Not a git repository: /work/plain")
  /\ final (plain_entry "/work/plain" world0) = world0
  /\ forall c r, In (Did c r) (log (plain_entry "/work/plain" world0)) ->
                 (exists q, c = CIsDir q)
                 \/ c = CRun ["git"; "clone"; "/work/plain";
                              local_path_of "/work/plain" temp_dir].
Proof.
  assert (R : res (process_repository "/work/plain" prompt_source temp_dir
                                      false false false world0)
              = inr (false, "Not a git repository: /work/plain")) by computed.
  pose proof (failed_entry_has_changed_nothing
                "/work/plain" prompt_source temp_dir false false false world0 _ R)
    as [_ Calls].
  split; [exact R |]. split; [computed | exact Calls].
Defined.

(** [/work/local] with [--commit --push]: the push is announced, and
    this is not a dry run. *)
Lemma dry_run_push_is_never_described_witness :
  In pushing_line (log (commit_and_push_entry "/work/local" world0))
  /\ ~ In would_push_line (log (commit_and_push_entry "/work/local" world0))
  /\ ~ In pushing_line
          (log (process_repository "/work/local" prompt_source temp_dir
                                   true true true world0)).
Proof.
  assert (I : In pushing_line
                 (log (process_repository "/work/local" prompt_source temp_dir
                                          true true false world0))) by listed.
  split; [exact I |]. split.
  - exact (proj1 (dry_run_push_is_never_described "/work/local" prompt_source temp_dir
                                                  true true false world0)).
  - intros X.
    destruct (proj2 (dry_run_push_is_never_described "/work/local" prompt_source temp_dir
                                                     true true true world0) X) as [D _].
    discriminate D.
Defined.

(** The entry [/work/repo]. *)
Lemma success_follows_directory_and_copy_witness :
  res (plain_entry "/work/repo" world0) = inr (true, "Repository processed successfully")
  /\ exists l1 l2 l3,
      log (plain_entry "/work/repo" world0)
      = (l1 ++ Did (CMakedirs "/work/repo/.claude/commands") RYes
            :: l2 ++ Did (CCopy2 prompt_source "/work/repo/.claude/commands/review-docs.md")
                         RYes
            :: l3)%list.
Proof.
  assert (R : res (process_repository "/work/repo" prompt_source temp_dir
                                      false false false world0)
              = inr (true, "Repository processed successfully")) by computed.
  split; [exact R |].
  exact (proj2 (success_follows_directory_and_copy
                  "/work/repo" prompt_source temp_dir false false world0 _ R)).
Defined.

(** The URL of [Scenario], and the same with a [/] at its end. *)
Lemma clone_directory_is_under_temp_dir_witness :
  is_remote_url remote_url = true
  /\ local_path_of remote_url temp_dir = "/tmp/tmp0/myhub-tools"
  /\ String.prefix temp_dir (local_path_of remote_url temp_dir) = true
  /\ PyStr.ends_with_char (remote_url ++ "/") "/" = true
  /\ PyStr.replace (OsPath.basename (remote_url ++ "/")) ".git" "" = ""
  /\ local_path_of (remote_url ++ "/") temp_dir = "/tmp/tmp0/".
Proof.
  pose proof (clone_directory_is_under_temp_dir
                remote_url prompt_source temp_dir false false world0 eq_refl)
    as (_ & _ & P & _).
  pose proof (clone_directory_is_under_temp_dir
                (remote_url ++ "/") prompt_source temp_dir false false world0 eq_refl)
    as (_ & _ & _ & _ & E).
  split; [reflexivity |]. split; [reflexivity |]. split; [exact P |].
  split; [reflexivity |]. split; [exact (E eq_refl) | reflexivity].
Defined.

(** The list [repos.txt] is deployed without a failure; [mixed.txt] is
    not. *)
Lemma completion_line_means_success_witness :
  In completed_line (log (main (plain_run "repos.txt") prompt_source world0))
  /\ ~ In completed_line (log (main (plain_run "mixed.txt") prompt_source world0)).
Proof.
  split.
  - apply (proj2 (completion_line_means_success (plain_run "repos.txt") prompt_source world0)).
    computed.
  - intros X.
    apply (proj1 (completion_line_means_success (plain_run "mixed.txt") prompt_source world0))
      in X.
    vm_compute in X. discriminate X.
Defined.

End MoreOnScenario.

(** ** The [.git]s of a name *)

Ltac compare_chars :=
  repeat match goal with
         | |- context [ascii_dec ?a ?b] =>
             let E := fresh "E" in
             destruct (ascii_dec a b) as [E | E];
             [try discriminate E; try subst | try (now contradiction E)]
         | P : context [ascii_dec ?a ?b] |- _ =>
             let E := fresh "E" in
             destruct (ascii_dec a b) as [E | E];
             [try discriminate E; try subst | try (now contradiction E)]
         end.

(** [".git"] does not overlap itself: it starts nowhere in the last
    characters of what precedes an occurrence. *)
Lemma no_straddle c q rest :
  String.prefix ".git" (String c q) = false ->
  String.prefix ".git" (String c q ++ ".git" ++ rest) = false.
Proof.
  destruct q as [| c2 [| c3 [| c4 q']]]; cbn [append String.prefix]; intros P;
    compare_chars; try reflexivity; try discriminate P.
  all: now destruct q'.
Qed.

Lemma replace_clean p :
  PyStr.occurs ".git" p = false -> PyStr.replace_from 0 ".git" "" p = p.
Proof.
  induction p as [| c p IH]; [reflexivity |].
  cbn [PyStr.occurs]. intros O. apply orb_false_elim in O as [P O].
  cbn [PyStr.replace_from]. rewrite P. now rewrite IH.
Qed.

(** [str.replace] drops the first [".git"] and goes on after it. *)
Lemma replace_piece p rest :
  PyStr.occurs ".git" p = false ->
  PyStr.replace_from 0 ".git" "" (p ++ ".git" ++ rest)
  = p ++ PyStr.replace_from 0 ".git" "" rest.
Proof.
  induction p as [| c p IH]; intros O.
  - cbn [append String.prefix PyStr.replace_from String.length Nat.sub].
    compare_chars. now destruct rest.
  - cbn [PyStr.occurs] in O. apply orb_false_elim in O as [P O].
    pose proof (no_straddle c p rest P) as N.
    cbn [append] in *. cbn [PyStr.replace_from]. rewrite N. now rewrite IH.
Qed.

(** Putting the pieces together without the [".git"]s between them is
    what [replace] makes of the name. *)
Lemma replace_join pieces :
  Forall (fun p => PyStr.occurs ".git" p = false) pieces ->
  PyStr.replace (PyStr.join ".git" pieces) ".git" "" = PyStr.join "" pieces.
Proof.
  unfold PyStr.replace.
  induction 1 as [| p pieces C F IH]; [reflexivity |].
  destruct pieces as [| q pieces].
  - cbn [PyStr.join]. now apply replace_clean.
  - change (PyStr.join ".git" (p :: q :: pieces))
      with (p ++ ".git" ++ PyStr.join ".git" (q :: pieces)).
    change (PyStr.join "" (p :: q :: pieces))
      with (p ++ "" ++ PyStr.join "" (q :: pieces)).
    rewrite replace_piece by exact C. now rewrite IH.
Qed.

(** Where [".git"] occurs, it occurs a first time. *)
Lemma first_occurrence s :
  PyStr.occurs ".git" s = true ->
  exists p rest, s = p ++ ".git" ++ rest /\ PyStr.occurs ".git" p = false.
Proof.
  induction s as [| c s IH]; [discriminate |].
  cbn [PyStr.occurs]. destruct (String.prefix ".git" (String c s)) eqn:P.
  - intros _. exists "". 
    destruct s as [| c2 [| c3 [| c4 s']]]; cbn [String.prefix] in P; compare_chars;
      try discriminate P.
    exists s'. split; reflexivity.
  - cbn [orb]. intros O. destruct (IH O) as (p & rest & -> & C).
    exists (String c p), rest. split; [reflexivity |].
    cbn [PyStr.occurs]. rewrite C, orb_false_r.
    destruct (String.prefix ".git" (String c p)) eqn:Q; [| reflexivity].
    destruct p as [| c2 [| c3 [| c4 p']]]; cbn [String.prefix append] in P, Q;
      compare_chars; try discriminate Q; try discriminate P.
    all: destruct p'; cbn [append String.prefix] in P; discriminate P.
Qed.

Lemma length_of_app a b : String.length (a ++ b) = String.length a + String.length b.
Proof. induction a as [| c a IH]; cbn; [reflexivity | now rewrite IH]. Qed.

(** Every name is pieces without [".git"] with a [".git"] between
    them. *)
Lemma pieces_exist : forall n s,
  String.length s <= n ->
  exists pieces,
    pieces <> [] /\ s = PyStr.join ".git" pieces
    /\ Forall (fun p => PyStr.occurs ".git" p = false) pieces.
Proof.
  induction n as [| n IH]; intros s L.
  - destruct s; [| cbn in L; lia]. exists [""]. repeat split; [discriminate |].
    now constructor.
  - destruct (PyStr.occurs ".git" s) eqn:O.
    + destruct (first_occurrence s O) as (p & rest & -> & C).
      destruct (IH rest) as (pieces & N & -> & F).
      { rewrite !length_of_app in L. cbn in L. lia. }
      exists (p :: pieces). split; [discriminate |]. split; [| now constructor].
      destruct pieces; [contradiction | reflexivity].
    + exists [s]. repeat split; [discriminate |]. now constructor.
Qed.

Section CloneName.

Context {W : Type} {H : Host W}.

(** C9.  The directory a remote entry is cloned into is named after
    the basename of the URL with every [".git"] removed, wherever it
    stands: however the basename is made of pieces without [".git"]
    with a [".git"] between them, the clone goes to the pieces put
    together, in the temporary directory; and every basename is made
    of such pieces. *)
Theorem clone_directory_drops_every_dot_git
        repo_url prompt_source temp_dir do_commit do_push w :
  is_remote_url repo_url = true ->
  (exists pieces,
      OsPath.basename repo_url = PyStr.join ".git" pieces
      /\ Forall (fun p => PyStr.occurs ".git" p = false) pieces)
  /\ forall pieces,
      OsPath.basename repo_url = PyStr.join ".git" pieces ->
      Forall (fun p => PyStr.occurs ".git" p = false) pieces ->
      exists r,
        In (Did (CRun ["git"; "clone"; repo_url;
                       OsPath.join temp_dir (PyStr.join "" pieces)]) r)
           (log (process_repository repo_url prompt_source temp_dir
                                    do_commit do_push false w)).
Proof.
  intros R. split.
  - destruct (pieces_exist _ (OsPath.basename repo_url) (le_n _)) as (pieces & _ & E & F).
    now exists pieces.
  - intros pieces E F.
    destruct (clone_is_called repo_url prompt_source temp_dir do_commit do_push w R)
      as [r I].
    exists r. unfold local_path_of in I. rewrite R, E, (replace_join pieces F) in I.
    exact I.
Qed.

End CloneName.

(** ** The loop, entry by entry *)

Section LoopRuns.

Context {W : Type} {H : Host W}.

(** An entry that returns has met no call that raised. *)
Lemma process_repository_returned
      repo_path prompt_source temp_dir do_commit do_push dry_run w v :
  res (process_repository repo_path prompt_source temp_dir do_commit do_push dry_run w)
  = inr v ->
  no_raise (log (process_repository repo_path prompt_source temp_dir
                                    do_commit do_push dry_run w)) = true.
Proof.
  rewrite process_repository_stages. cbv zeta.
  destruct (res (determine_local_path repo_path temp_dir dry_run w))
    as [e1 | [early | lp]] eqn:R1; cbn [res final log]; [discriminate | |].
  - intros _. eapply determine_local_path_returned; eassumption.
  - apply determine_local_path_returned in R1.
    destruct (res (deploy_prompt _ _ _ _ _)) as [e2 | []] eqn:R2; cbn [res final log];
      [discriminate |].
    apply deploy_prompt_returned in R2.
    destruct do_commit.
    + destruct (res (git_operations _ _ _ _ _)) as [e3 | []] eqn:R3; [discriminate |].
      intros _. apply git_operations_returned in R3.
      now rewrite !no_raise_app, R1, R2, R3.
    + unfold ret. cbn [res final log]. intros _.
      now rewrite app_nil_r, no_raise_app, R1, R2.
Qed.

(** C3, as amended.  As long as no host call raises, the loop gives
    every entry of the list to [process_repository], in the order of
    the list and each in the world the one before has left, reports
    it, and counts it as successful or as failed: a failure does not
    stop the loop.  When a call raises in an entry, the exception
    leaves [process_repository] and the loop with it: the entries
    before were processed as said, and the log ends with what that
    entry did, so that none of those after it is attempted.  The loop
    returns only when nothing raised. *)
Theorem loop_attempts_every_entry repos :
  forall idx total_repos prompt_source temp_dir a s f w,
    let o := process_all repos idx total_repos prompt_source temp_dir a s f w in
    (no_raise (log o) = true ->
     exists flags w',
       entries_run prompt_source temp_dir a total_repos idx repos w flags w' (log o)
       /\ res o = inr (s + length (filter (fun b => b) flags),
                       f + length (filter negb flags))
       /\ final o = w')
    /\ (forall e, res o = inl e ->
        exists done repo_path rest flags w1 l1,
          repos = (done ++ repo_path :: rest)%list
          /\ entries_run prompt_source temp_dir a total_repos idx done w flags w1 l1
          /\ let entry := process_repository repo_path prompt_source temp_dir
                                             (commit a) (push a) (dry_run a) w1 in
             res entry = inl e
             /\ final o = final entry
             /\ log o = (l1 ++ separator_line
                            :: processing_line (idx + length done) total_repos repo_path
                            :: log entry)%list)
    /\ (forall v, res o = inr v -> no_raise (log o) = true).
Proof.
  induction repos as [| repo_path rest IH];
    intros idx total_repos prompt_source temp_dir a s f w.
  - cbn. split; [| split]; [| discriminate | reflexivity].
    intros _. exists [], w. split; [constructor |]. now rewrite !Nat.add_0_r.
  - cbv zeta. rewrite process_all_cons. cbv zeta.
    fold separator_line.
    destruct (process_repository repo_path prompt_source temp_dir
                                 (commit a) (push a) (dry_run a) w)
      as [r1 w1 l1] eqn:E.
    assert (Raise : forall e, r1 = inl e -> no_raise l1 = false).
    { intros e ->.
      pose proof (process_repository_raise repo_path prompt_source temp_dir
                                           (commit a) (push a) (dry_run a) w e) as X.
      rewrite E in X. now apply X. }
    assert (Return : forall v, r1 = inr v -> no_raise l1 = true).
    { intros v ->.
      pose proof (process_repository_returned repo_path prompt_source temp_dir
                                              (commit a) (push a) (dry_run a) w v) as X.
      rewrite E in X. now apply X. }
    cbn [res final log].
    destruct r1 as [e1 | [success message]].
    + (* the entry raises *)
      cbn [res final log app]. split; [| split]; [| | discriminate].
      * intros NR. cbn [no_raise forallb raises negb andb] in NR.
        fold (no_raise l1) in NR. rewrite (Raise e1 eq_refl) in NR.
        unfold separator_line, processing_line in NR. discriminate NR.
      * intros e [= <-]. exists [], repo_path, rest, [], w, [].
        split; [reflexivity |]. split; [constructor |].
        cbv zeta. rewrite E. cbn [res final log app length]. rewrite Nat.add_0_r.
        repeat split.
    + (* the entry returns *)
      assert (N1 : no_raise l1 = true) by (eapply Return; reflexivity).
      assert (Step : forall s' f',
                 let o' := process_all rest (S idx) total_repos prompt_source temp_dir a
                                       s' f' w1 in
                 (no_raise ([separator_line; processing_line idx total_repos repo_path]
                            ++ l1 ++ result_line success message :: log o') = true
                  -> no_raise (log o') = true)
                 /\ (no_raise (log o') = true ->
                     no_raise ([separator_line; processing_line idx total_repos repo_path]
                               ++ l1 ++ result_line success message :: log o') = true)).
      { intros s' f' o'. rewrite !no_raise_app, N1.
        assert (R : no_raise (result_line success message :: log o') = no_raise (log o'))
          by now destruct success.
        rewrite R. unfold separator_line, processing_line. cbn. tauto. }
      assert (Line : (if success
                      then Print (Colors.GREEN ++ ("  ✓ " ++ message) ++ Colors.NC)
                      else Print (Colors.RED ++ ("  ✗ " ++ message) ++ Colors.NC))
                     = result_line success message) by reflexivity.
      destruct success; cbn [res final log]; cbv zeta.
      * specialize (IH (S idx) total_repos prompt_source temp_dir a (S s) f w1).
        cbv zeta in IH. destruct IH as (IH1 & IH2 & IH3).
        specialize (Step (S s) f). cbv zeta in Step.
        change (Print (Colors.GREEN ++ ("  ✓ " ++ message) ++ Colors.NC))
          with (result_line true message).
        split; [| split].
        -- intros NR. apply Step in NR. destruct (IH1 NR) as (flags & w' & Run & R & Fi).
           exists (true :: flags), w'. split; [| split; [| exact Fi]].
           ++ cbn [app]. econstructor; [exact E | exact Run].
           ++ rewrite R. cbn [filter negb length]. f_equal. f_equal; lia.
        -- intros e Re. destruct (IH2 e Re)
             as (done & rp & rest' & flags & w2 & l2 & -> & Run & Rr & Fi & Lg).
           exists (repo_path :: done), rp, rest', (true :: flags), w2.
           eexists. split; [reflexivity |]. split; [econstructor; [exact E | exact Run] |].
           cbv zeta in *. split; [exact Rr |]. split; [exact Fi |].
           rewrite Lg. cbn [app length]. rewrite Nat.add_succ_r.
           cbn [Nat.add]. rewrite <- app_assoc. reflexivity.
        -- intros v Rv. apply Step. now apply (IH3 v).
      * specialize (IH (S idx) total_repos prompt_source temp_dir a s (S f) w1).
        cbv zeta in IH. destruct IH as (IH1 & IH2 & IH3).
        specialize (Step s (S f)). cbv zeta in Step.
        change (Print (Colors.RED ++ ("  ✗ " ++ message) ++ Colors.NC))
          with (result_line false message).
        split; [| split].
        -- intros NR. apply Step in NR. destruct (IH1 NR) as (flags & w' & Run & R & Fi).
           exists (false :: flags), w'. split; [| split; [| exact Fi]].
           ++ cbn [app]. econstructor; [exact E | exact Run].
           ++ rewrite R. cbn [filter negb length]. f_equal. f_equal; lia.
        -- intros e Re. destruct (IH2 e Re)
             as (done & rp & rest' & flags & w2 & l2 & -> & Run & Rr & Fi & Lg).
           exists (repo_path :: done), rp, rest', (false :: flags), w2.
           eexists. split; [reflexivity |]. split; [econstructor; [exact E | exact Run] |].
           cbv zeta in *. split; [exact Rr |]. split; [exact Fi |].
           rewrite Lg. cbn [app length]. rewrite Nat.add_succ_r.
           cbn [Nat.add]. rewrite <- app_assoc. reflexivity.
        -- intros v Rv. apply Step. now apply (IH3 v).
Qed.

End LoopRuns.

(** ** A dry run *)

Section DryRunEntry.

Context {W : Type} {H : Host W}.




End DryRunEntry.

(** ** [main], from the list it has read *)

Section MainRuns.

Context {W : Type} {H : Host W}.

(** What [read_repo_list] returns was read from the lines of the
    file. *)
Lemma read_repo_list_returns file_path (w : W) repos :
  res (read_repo_list file_path w) = inr repos ->
  exists lines, open_lines file_path w = inr lines /\ repos = entries_of lines.
Proof.
  unfold read_repo_list. destruct (open_lines file_path w) as [e | lines]; [discriminate |].
  intros [= <-]. now exists lines.
Qed.

(** C5.  The exit status is 1 when the list file is missing, when
    the prompt is missing, and when the list that is read has no
    entry; otherwise, once every entry has been attempted, it is 1
    when an entry failed and 0 when they all succeeded. *)
Theorem exit_code_of_main parsed prompt_source w :
  let a := effective parsed in
  let o := main parsed prompt_source w in
  (os_path_isfile (repo_list a) w = false -> exit_code (res o) = 1)
  /\ (os_path_isfile (repo_list a) w = true ->
      os_path_isfile prompt_source w = false -> exit_code (res o) = 1)
  /\ (os_path_isfile (repo_list a) w = true ->
      os_path_isfile prompt_source w = true ->
      res (read_repo_list (repo_list a) w) = inr [] ->
      exit_code (res o) = 1)
  /\ (forall repos temp_dir w1 flags w2 w3,
         os_path_isfile (repo_list a) w = true ->
         os_path_isfile prompt_source w = true ->
         res (read_repo_list (repo_list a) w) = inr repos ->
         repos <> [] ->
         tempfile_create w = inr (temp_dir, w1) ->
         attempts prompt_source temp_dir a repos w1 flags w2 ->
         tempfile_cleanup temp_dir w2 = inr w3 ->
         exit_code (res o) = if existsb negb flags then 1 else 0).
Proof.
  cbv zeta. unfold main. cbv zeta. generalize (effective parsed) as a. intros a.
  split; [| split; [| split]].
  - unfold isfile, print_colored, print, sys_exit, raise, bind.
    intros L. rewrite L. reflexivity.
  - unfold isfile, print_colored, print, sys_exit, raise, bind.
    intros L P. rewrite L. cbn. rewrite P. reflexivity.
  - intros L P R. destruct (read_repo_list_returns _ _ _ R) as (lines & O & E).
    unfold entries_of in E.
    unfold isfile, read_repo_list, print_colored, print, sys_exit, raise, bind.
    rewrite L. cbn. rewrite P. cbn. rewrite O, <- E. reflexivity.
  - intros repos temp_dir w1 flags w2 w3 L P R E T A C.
    destruct (read_repo_list_returns _ _ _ R) as (lines & O & ->).
    unfold entries_of in *.
    unfold isfile, read_repo_list, print_colored, print, sys_exit, raise, bind.
    rewrite L. cbn. rewrite P. cbn. rewrite O. cbv beta iota.
    destruct (filter keep_line (map PyStr.strip lines)) as [| r0 rest] eqn:F;
      [contradiction |].
    unfold with_temporary_directory, finally, perform. rewrite T.
    destruct (attempts_counts _ _ _ _ _ _ _ A 1 (length (r0 :: rest)) 0 0) as [l E'].
    rewrite E'. rewrite C. cbn [res final log Nat.add]. cbv beta iota.
    pose proof (no_failure_count flags) as NF.
    destruct (length (filter negb flags)); destruct (existsb negb flags);
      cbn in NF; try discriminate NF; destruct (dry_run a); reflexivity.
Qed.

(** X9.  When the list file or the prompt is missing, or the list
    that is read has no entry, [main] exits with status 1 before it
    has touched anything: the world is as it was, the only calls made
    are the checks and the reading of the list, and no temporary
    directory was created. *)
Theorem validation_precedes_every_change parsed prompt_source w :
  let a := effective parsed in
  let o := main parsed prompt_source w in
  (os_path_isfile (repo_list a) w = false ->
   o = Outcome (inl (SystemExit 1)) w
               [ Did (CIsFile (repo_list a)) RNo;
                 Print (Colors.RED
                        ++ ("Error: Repository list file not found: " ++ repo_list a)
                        ++ Colors.NC) ])
  /\ (os_path_isfile (repo_list a) w = true ->
      os_path_isfile prompt_source w = false ->
      o = Outcome (inl (SystemExit 1)) w
                  [ Did (CIsFile (repo_list a)) RYes;
                    Did (CIsFile prompt_source) RNo;
                    Print (Colors.RED
                           ++ ("Error: Source prompt file not found: " ++ prompt_source)
                           ++ Colors.NC) ])
  /\ (os_path_isfile (repo_list a) w = true ->
      os_path_isfile prompt_source w = true ->
      res (read_repo_list (repo_list a) w) = inr [] ->
      res o = inl (SystemExit 1) /\ final o = w
      /\ (forall c r, In (Did c r) (log o) -> query_call c = true)
      /\ In (Print (Colors.RED ++ "Error: No repositories found in list file"
                    ++ Colors.NC)) (log o)).
Proof.
  cbv zeta. unfold main. cbv zeta. generalize (effective parsed) as a. intros a.
  split; [| split].
  - unfold isfile, print_colored, print, sys_exit, raise, bind.
    intros L. rewrite L. reflexivity.
  - unfold isfile, print_colored, print, sys_exit, raise, bind.
    intros L P. rewrite L. cbn. rewrite P. reflexivity.
  - intros L P R. destruct (read_repo_list_returns _ _ _ R) as (lines & O & E).
    unfold entries_of in E.
    unfold isfile, read_repo_list, print_colored, print, sys_exit, raise, bind.
    rewrite L. cbn. rewrite P. cbn. rewrite O, <- E.
    cbn [res final log app]. split; [reflexivity |]. split; [reflexivity |]. split.
    + intros c r HIn. absurd_in HIn; injection HIn as <- _; reflexivity.
    + simpl. auto 20.
Qed.

(** X10.  Once the temporary directory is created, it is cleaned up
    after the loop whatever the loop did: also when an entry raised,
    and then the exception leaves [main] after the cleanup. *)
Theorem temporary_directory_is_always_removed
        parsed prompt_source w repos temp_dir w1 :
  let a := effective parsed in
  let loop := process_all repos 1 (length repos) prompt_source temp_dir a 0 0 w1 in
  let o := main parsed prompt_source w in
  os_path_isfile (repo_list a) w = true ->
  os_path_isfile prompt_source w = true ->
  res (read_repo_list (repo_list a) w) = inr repos ->
  repos <> [] ->
  tempfile_create w = inr (temp_dir, w1) ->
  (exists l1 l2 r,
      log o = (l1 ++ log loop ++ Did (CCleanup temp_dir) r :: l2)%list
      /\ forall c r', In (Did c r') l1 -> query_call c = true \/ c = CMkdtemp)
  /\ (forall e w3, res loop = inl e ->
                   tempfile_cleanup temp_dir (final loop) = inr w3 ->
                   res o = inl e /\ final o = w3)
  /\ (forall e, tempfile_cleanup temp_dir (final loop) = inl e -> res o = inl e).
Proof.
  intros a loop o L P Rd E T.
  destruct (read_repo_list_returns _ _ _ Rd) as (lines & O & ->).
  destruct (main_loop_and_cleanup parsed prompt_source w lines temp_dir w1 L P O E T)
    as (header & rest & Lg & Q & _ & R).
  fold a loop o in Lg, R.
  split; [| split].
  - exists (header ++ [Did CMkdtemp RYes])%list, rest. eexists. split.
    + rewrite Lg, <- app_assoc. reflexivity.
    + intros c r' X. apply in_app_or in X as [X | [X | []]].
      * left. eapply Q, X.
      * right. now injection X as <- _.
  - intros e w3 Rl C. rewrite C, Rl in R. tauto.
  - intros e C. rewrite C in R. tauto.
Qed.

(** X11.  When every entry returns, the summary gives the number of
    entries that were read, the number of those that succeeded, and
    the number of those that failed when there is one: the two add up
    to the first. *)
Theorem summary_counts_the_entries
        parsed prompt_source w repos temp_dir w1 flags w2 w3 :
  let a := effective parsed in
  let o := main parsed prompt_source w in
  let successes := length (filter (fun b => b) flags) in
  let failures := length (filter negb flags) in
  os_path_isfile (repo_list a) w = true ->
  os_path_isfile prompt_source w = true ->
  res (read_repo_list (repo_list a) w) = inr repos ->
  repos <> [] ->
  tempfile_create w = inr (temp_dir, w1) ->
  attempts prompt_source temp_dir a repos w1 flags w2 ->
  tempfile_cleanup temp_dir w2 = inr w3 ->
  successes + failures = length repos
  /\ In (total_line (length repos)) (log o)
  /\ In (successful_line successes) (log o)
  /\ (0 < failures -> In (failed_line failures) (log o))
  /\ (failures = 0 -> forall n, ~ In (failed_line n) (log o))
  /\ final o = w3.
Proof.
  intros a o successes failures L P Rd E T A C.
  destruct (read_repo_list_returns _ _ _ Rd) as (lines & O & ->).
  destruct (main_loop_and_cleanup parsed prompt_source w lines temp_dir w1 L P O E T)
    as (header & rest & Lg & _ & [_ Hd] & R).
  fold a o in Lg, R.
  destruct (attempts_counts _ _ _ _ _ _ _ A 1 (length (entries_of lines)) 0 0) as [l Lo].
  rewrite Lo in R, Lg. cbn [res final log Nat.add] in R, Lg. rewrite C in R, Lg.
  fold successes failures in R.
  destruct R as (F & _ & Tl & Sl & Fl & Fn & _).
  assert (In_rest : forall i, In i rest -> In i (log o)).
  { intros i X. rewrite Lg. apply in_or_app. right. right.
    apply in_or_app. right. now right. }
  split; [apply (attempts_length _ _ _ _ _ _ _ A) |].
  split; [now apply In_rest |]. split; [now apply In_rest |].
  split; [intros Pos; apply In_rest; now apply Fl |].
  split; [| exact F].
  intros Z n X. rewrite Lg in X.
  apply in_app_or in X as [X | [X | X]]; [now apply Hd in X | discriminate X |].
  apply in_app_or in X as [X | [X | X]]; [| discriminate X |].
  - pose proof (process_all_no_summary (entries_of lines) 1 (length (entries_of lines))
                                       prompt_source temp_dir a 0 0 w1
                                       (failed_line n) (or_intror (ex_intro _ n eq_refl)))
      as N.
    rewrite Lo in N. now apply N.
  - apply Fn in X. lia.
Qed.

End MainRuns.

(** ** The list file *)

(** A white-space character is one, two or three bytes. *)
Lemma isspace_bytes ch :
  PyStr.isspace ch = true ->
  (exists c1, ch = String c1 "")
  \/ (exists c1 c2, ch = String c1 (String c2 ""))
  \/ (exists c1 c2 c3, ch = String c1 (String c2 (String c3 ""))).
Proof.
  unfold PyStr.isspace. rewrite existsb_exists. intros (ws & I & E).
  apply String.eqb_eq in E. subst ws. vm_compute in I.
  repeat (destruct I as [<- | I]; [eauto 6 |]). destruct I.
Qed.

(** Does [s] start with a white-space character? *)
Lemma leading_space s ch :
  PyStr.isspace ch = true -> String.prefix ch s = true ->
  match s with
  | String c1 r1 =>
      PyStr.isspace (String c1 "") = true
      \/ match r1 with
         | String c2 r2 =>
             PyStr.isspace (String c1 (String c2 "")) = true
             \/ match r2 with
                | String c3 _ => PyStr.isspace (String c1 (String c2 (String c3 ""))) = true
                | EmptyString => False
                end
         | EmptyString => False
         end
  | EmptyString => False
  end.
Proof.
  intros S P.
  destruct (isspace_bytes ch S) as [(a & ->) | [(a & b & ->) | (a & b & c & ->)]].
  - destruct s as [| c1 r1]; [discriminate P |].
    cbn [String.prefix] in P. destruct (ascii_dec a c1) as [<- |]; [| discriminate P].
    now left.
  - destruct s as [| c1 [| c2 r2]]; cbn [String.prefix] in P;
      repeat match type of P with
             | context [ascii_dec ?x ?y] => destruct (ascii_dec x y) as [<- |]
             end; try discriminate P.
    right. now left.
  - destruct s as [| c1 [| c2 [| c3 r3]]]; cbn [String.prefix] in P;
      repeat match type of P with
             | context [ascii_dec ?x ?y] => destruct (ascii_dec x y) as [<- |]
             end; try discriminate P.
    right. right. exact S.
Qed.

Lemma lstrip_spec : forall n s,
  String.length s <= n ->
  (exists l, s = l ++ PyStr.lstrip s /\ all_space l)
  /\ forall ch, PyStr.isspace ch = true -> String.prefix ch (PyStr.lstrip s) = false.
Proof.
  induction n as [| n IH]; intros s L.
  - destruct s; [| cbn in L; lia]. split.
    + exists "". split; [reflexivity | constructor].
    + intros ch S. destruct ch; [discriminate S | reflexivity].
  - destruct s as [| c1 r1].
    { split; [exists ""; split; [reflexivity | constructor] |].
      intros ch S. destruct ch; [discriminate S | reflexivity]. }
    assert (Go : forall ch rest,
               String c1 r1 = ch ++ rest -> ch <> "" -> PyStr.isspace ch = true ->
               PyStr.lstrip (String c1 r1) = PyStr.lstrip rest ->
               (exists l, String c1 r1 = l ++ PyStr.lstrip (String c1 r1) /\ all_space l)
               /\ forall ch', PyStr.isspace ch' = true ->
                              String.prefix ch' (PyStr.lstrip (String c1 r1)) = false).
    { intros ch rest E N S Eq. rewrite Eq.
      destruct (IH rest) as [(l & El & Al) Pf].
      { apply (f_equal String.length) in E. rewrite length_of_app in E.
        destruct ch; [contradiction |]. cbn in E, L. lia. }
      split; [| exact Pf].
      exists (ch ++ l). split; [| now constructor].
      rewrite E, El at 1. clear. induction ch as [| c ch IHc]; cbn; [reflexivity |].
      now rewrite IHc. }
    destruct (PyStr.isspace (String c1 "")) eqn:S1.
    { apply (Go (String c1 "") r1); [reflexivity | discriminate | exact S1 |].
      cbn [PyStr.lstrip]. now rewrite S1. }
    assert (Stay : PyStr.lstrip (String c1 r1) = String c1 r1 ->
                   (forall ch, PyStr.isspace ch = true ->
                               String.prefix ch (String c1 r1) = false) ->
                   (exists l, String c1 r1 = l ++ PyStr.lstrip (String c1 r1)
                              /\ all_space l)
                   /\ forall ch', PyStr.isspace ch' = true ->
                                  String.prefix ch' (PyStr.lstrip (String c1 r1)) = false).
    { intros E Pf. rewrite E. split; [| exact Pf].
      exists "". split; [reflexivity | constructor]. }
    destruct r1 as [| c2 r2].
    { apply Stay; [cbn [PyStr.lstrip]; now rewrite S1 |].
      intros ch S. destruct (String.prefix ch (String c1 "")) eqn:P; [| reflexivity].
      pose proof (leading_space _ _ S P) as [X | []]. congruence. }
    destruct (PyStr.isspace (String c1 (String c2 ""))) eqn:S2.
    { apply (Go (String c1 (String c2 "")) r2); [reflexivity | discriminate | exact S2 |].
      cbn [PyStr.lstrip]. now rewrite S1, S2. }
    destruct r2 as [| c3 r3].
    { apply Stay; [cbn [PyStr.lstrip]; now rewrite S1, S2 |].
      intros ch S. destruct (String.prefix ch (String c1 (String c2 ""))) eqn:P;
        [| reflexivity].
      pose proof (leading_space _ _ S P) as [X | [X | []]]; congruence. }
    destruct (PyStr.isspace (String c1 (String c2 (String c3 "")))) eqn:S3.
    { apply (Go (String c1 (String c2 (String c3 ""))) r3);
        [reflexivity | discriminate | exact S3 |].
      cbn [PyStr.lstrip]. now rewrite S1, S2, S3. }
    apply Stay; [cbn [PyStr.lstrip]; now rewrite S1, S2, S3 |].
    intros ch S.
    destruct (String.prefix ch (String c1 (String c2 (String c3 r3)))) eqn:P;
      [| reflexivity].
    pose proof (leading_space _ _ S P) as [X | [X | X]]; congruence.
Qed.

Lemma no_space_is_empty : PyStr.isspace "" = false.
Proof. reflexivity. Qed.

Lemma rstrip_spec s :
  (exists t, s = PyStr.rstrip s ++ t /\ all_space t)
  /\ forall ch x, PyStr.isspace ch = true -> PyStr.rstrip s <> x ++ ch.
Proof.
  assert (Empty : forall ch x, PyStr.isspace ch = true -> "" <> x ++ ch).
  { intros ch x S E. destruct x; [| discriminate E]. cbn in E. subst ch. discriminate S. }
  induction s as [| c rest [(t0 & E0 & A0) IH]].
  - split; [| exact Empty]. exists "". split; [reflexivity | constructor].
  - cbn [PyStr.rstrip]. cbv zeta.
    destruct (PyStr.isspace (String c (PyStr.rstrip rest))) eqn:S.
    + split; [| exact Empty]. exists (String c (PyStr.rstrip rest) ++ t0).
      split; [cbn; now rewrite <- E0 | now constructor].
    + split.
      * exists t0. split; [cbn; now rewrite <- E0 | exact A0].
      * intros ch x Sc E. destruct x as [| d x].
        -- cbn in E. subst ch. congruence.
        -- cbn in E. injection E as _ E. now apply (IH ch x Sc).
Qed.

Lemma prefix_of_app sub : forall q x,
  String.prefix sub q = true -> String.prefix sub (q ++ x) = true.
Proof.
  induction sub as [| a sub IH]; intros q x P.
  - now destruct (q ++ x).
  - destruct q as [| b q]; [discriminate P |].
    cbn [append String.prefix] in *.
    destruct (ascii_dec a b); [now apply IH | discriminate P].
Qed.

(** [str.strip()] takes white space off both ends, and all of it. *)
Lemma strip_spec line :
  (exists l t, line = l ++ PyStr.strip line ++ t /\ all_space l /\ all_space t)
  /\ (forall ch, PyStr.isspace ch = true -> String.prefix ch (PyStr.strip line) = false)
  /\ (forall ch x, PyStr.isspace ch = true -> PyStr.strip line <> x ++ ch).
Proof.
  unfold PyStr.strip.
  destruct (lstrip_spec _ line (le_n _)) as [(l & El & Al) Pl].
  destruct (rstrip_spec (PyStr.lstrip line)) as [(t & Et & At) Pt].
  split; [| split; [| exact Pt]].
  - exists l, t. split; [| split; assumption]. now rewrite <- Et.
  - intros ch S. destruct (String.prefix ch (PyStr.rstrip (PyStr.lstrip line))) eqn:P;
      [| reflexivity].
    apply (prefix_of_app _ _ t) in P. rewrite <- Et in P.
    now rewrite (Pl ch S) in P.
Qed.

Lemma keep_line_spec r :
  keep_line r = true <-> r <> "" /\ PyStr.startswith r "#" = false.
Proof.
  unfold keep_line. rewrite andb_true_iff, !negb_true_iff. now rewrite String.eqb_neq.
Qed.

Lemma kept_lines_entries lines : kept_lines lines (entries_of lines).
Proof.
  unfold entries_of. induction lines as [| line lines IH]; [constructor |].
  cbn [map filter]. destruct (keep_line (PyStr.strip line)) eqn:K.
  - apply keep_line_spec in K as [N S]. now constructor.
  - apply kept_skip; [| exact IH].
    unfold keep_line in K. apply andb_false_iff in K as [K | K];
      apply negb_false_iff in K; [left; now apply String.eqb_eq | now right].
Qed.

Lemma kept_lines_unique lines repos : kept_lines lines repos -> repos = entries_of lines.
Proof.
  unfold entries_of. induction 1 as [| line lines repos S K IH | line lines repos N S K IH];
    [reflexivity | |]; cbn [map filter].
  - assert (F : keep_line (PyStr.strip line) = false).
    { unfold keep_line. destruct S as [-> | ->]; [reflexivity | apply andb_false_r]. }
    now rewrite F.
  - rewrite (proj2 (keep_line_spec _) (conj N S)). now rewrite IH.
Qed.

Section ListFile.

Context {W : Type} {H : Host W}.

(** X7.  [read_repo_list] returns the entries kept of the lines of the
    file, in the order of the file and as often as they stand in it:
    each line is stripped of the white space at its two ends, and
    passed over when nothing is left or what is left starts with [#].
    So no entry is empty, none starts with [#], and none starts or
    ends with a white-space character. *)
Theorem read_repo_list_entries file_path w lines :
  open_lines file_path w = inr lines ->
  exists repos,
    res (read_repo_list file_path w) = inr repos
    /\ kept_lines lines repos
    /\ (forall others, kept_lines lines others -> others = repos)
    /\ (forall line, In line lines ->
                     exists l t, line = l ++ PyStr.strip line ++ t
                                 /\ all_space l /\ all_space t)
    /\ forall r, In r repos ->
                 r <> "" /\ PyStr.startswith r "#" = false
                 /\ (forall ch, PyStr.isspace ch = true -> String.prefix ch r = false)
                 /\ (forall ch x, PyStr.isspace ch = true -> r <> x ++ ch).
Proof.
  intros O. exists (entries_of lines). unfold read_repo_list. rewrite O.
  split; [reflexivity |]. split; [apply kept_lines_entries |].
  split; [apply kept_lines_unique |].
  split; [intros line _; apply strip_spec |].
  intros r I. unfold entries_of in I. apply filter_In in I as [I K].
  apply in_map_iff in I as (line & <- & _). apply keep_line_spec in K as [N S].
  split; [exact N |]. split; [exact S |]. apply strip_spec.
Qed.

End ListFile.

Module ListFileRuns.

Import Sim Scenario Runs MoreRuns SpacedLists.

(** The list [spaced.txt]: a line of white space, a comment behind an
    ideographic space, and [/work/repo] between no-break spaces. *)
Lemma read_repo_list_entries_witness :
  open_lines "spaced.txt" world1
  = inr [nbsp ++ wide ++ nl; wide ++ "# the tools" ++ nl;
         nbsp ++ "/work/repo" ++ nbsp ++ " " ++ nl]
  /\ res (read_repo_list "spaced.txt" world1) = inr ["/work/repo"]
  /\ kept_lines [nbsp ++ wide ++ nl; wide ++ "# the tools" ++ nl;
                 nbsp ++ "/work/repo" ++ nbsp ++ " " ++ nl]
                ["/work/repo"].
Proof.
  assert (O : open_lines "spaced.txt" world1
              = inr [nbsp ++ wide ++ nl; wide ++ "# the tools" ++ nl;
                     nbsp ++ "/work/repo" ++ nbsp ++ " " ++ nl])
    by (vm_compute; reflexivity).
  assert (R : res (read_repo_list "spaced.txt" world1) = inr ["/work/repo"])
    by (vm_compute; reflexivity).
  destruct (read_repo_list_entries "spaced.txt" world1 _ O) as (repos & R' & K & _).
  split; [exact O |]. split; [exact R |].
  rewrite R in R'. injection R' as <-. exact K.
Defined.

End ListFileRuns.

(** ** The loop, a dry run and [main] on the worlds of [Scenario] *)

Module ScenarioRuns.

Import Sim Scenario Runs MoreRuns SpacedLists.

Ltac run := vm_compute; reflexivity.


(** The list [/work/plain], [/work/repo]: the first entry fails and
    the second is processed after it; and the list [/work/bad],
    [/work/repo]: the first entry raises, and the log ends with what
    it did. *)
Lemma loop_attempts_every_entry_witness :
  (let o := process_all ["/work/plain"; "/work/repo"] 1 2 prompt_source temp_dir
                        (plain_run "mixed.txt") 0 0 with_temp_dir in
   no_raise (log o) = true
   /\ res o = inr (1, 1)
   /\ exists flags w',
       entries_run prompt_source temp_dir (plain_run "mixed.txt") 2 1
                   ["/work/plain"; "/work/repo"] with_temp_dir flags w' (log o)
       /\ final o = w')
  /\ (let o := process_all ["/work/bad"; "/work/repo"] 1 2 prompt_source temp_dir
                           (plain_run "two.txt") 0 0 with_temp_dir in
      res o = inl NotADirectoryError
      /\ exists done repo_path rest flags w1 l1,
          ["/work/bad"; "/work/repo"] = (done ++ repo_path :: rest)%list
          /\ entries_run prompt_source temp_dir (plain_run "two.txt") 2 1
                         done with_temp_dir flags w1 l1
          /\ res (plain_entry repo_path w1) = inl NotADirectoryError
          /\ log o = (l1 ++ separator_line
                         :: processing_line (1 + length done) 2 repo_path
                         :: log (plain_entry repo_path w1))%list).
Proof.
  split; cbv zeta.
  - assert (NR : no_raise (log (process_all ["/work/plain"; "/work/repo"] 1 2 prompt_source
                                            temp_dir (plain_run "mixed.txt") 0 0
                                            with_temp_dir)) = true) by run.
    destruct (proj1 (loop_attempts_every_entry
                       ["/work/plain"; "/work/repo"] 1 2 prompt_source temp_dir
                       (plain_run "mixed.txt") 0 0 with_temp_dir) NR)
      as (flags & w' & Run & _ & Fi).
    split; [exact NR |]. split; [run |]. exists flags, w'. split; [exact Run | exact Fi].
  - assert (R : res (process_all ["/work/bad"; "/work/repo"] 1 2 prompt_source temp_dir
                                 (plain_run "two.txt") 0 0 with_temp_dir)
                = inl NotADirectoryError) by run.
    destruct (proj1 (proj2 (loop_attempts_every_entry
                              ["/work/bad"; "/work/repo"] 1 2 prompt_source temp_dir
                              (plain_run "two.txt") 0 0 with_temp_dir))
                    NotADirectoryError R)
      as (done & rp & rest & flags & w1 & l1 & E & Run & Re & _ & Lg).
    split; [exact R |]. exists done, rp, rest, flags, w1, l1.
    split; [exact E |]. split; [exact Run |]. split; [exact Re | exact Lg].
Defined.


(** The exit status of five runs: no list file, no prompt, a list of
    white space only, the list [/work/plain], [/work/repo], where the
    first entry fails, and a list that names [/work/repo] between
    no-break spaces. *)
Lemma exit_code_of_main_witness :
  exit_code (res (main (plain_run "missing.txt") prompt_source world0)) = 1
  /\ exit_code (res (main (plain_run "repos.txt") "/nowhere/review-docs.md" world0)) = 1
  /\ (res (read_repo_list "blank.txt" world1) = inr []
      /\ exit_code (res (main (plain_run "blank.txt") prompt_source world1)) = 1)
  /\ (res (read_repo_list "mixed.txt" world0) = inr ["/work/plain"; "/work/repo"]
      /\ exit_code (res (main (plain_run "mixed.txt") prompt_source world0)) = 1)
  /\ (res (read_repo_list "spaced.txt" world1) = inr ["/work/repo"]
      /\ exit_code (res (main (plain_run "spaced.txt") prompt_source world1)) = 0).
Proof.
  split; [| split; [| split; [| split]]].
  - destruct (exit_code_of_main (plain_run "missing.txt") prompt_source world0) as (E & _).
    apply E. run.
  - destruct (exit_code_of_main (plain_run "repos.txt") "/nowhere/review-docs.md" world0)
      as (_ & E & _).
    apply E; run.
  - assert (R : res (read_repo_list "blank.txt" world1) = inr []) by run.
    split; [exact R |].
    destruct (exit_code_of_main (plain_run "blank.txt") prompt_source world1)
      as (_ & _ & E & _).
    apply E; [run | run | exact R].
  - assert (R : res (read_repo_list "mixed.txt" world0) = inr ["/work/plain"; "/work/repo"])
      by run.
    split; [exact R |].
    destruct (exit_code_of_main (plain_run "mixed.txt") prompt_source world0)
      as (_ & _ & _ & E).
    pose (a := plain_run "mixed.txt").
    pose (w2 := final (plain_entry "/work/plain" with_temp_dir)).
    pose (w3 := final (plain_entry "/work/repo" w2)).
    refine (E ["/work/plain"; "/work/repo"] temp_dir with_temp_dir [false; true] w3
              (cleaned w3) _ _ R _ _ _ _); try run.
    + discriminate.
    + apply (attempts_cons prompt_source temp_dir a "/work/plain" ["/work/repo"]
                           with_temp_dir false "Not a git repository: /work/plain" w2
                           (log (plain_entry "/work/plain" with_temp_dir)) [true] w3);
        [run |].
      apply (attempts_cons prompt_source temp_dir a "/work/repo" [] w2
                           true "Repository processed successfully" w3
                           (log (plain_entry "/work/repo" w2)) [] w3);
        [run | apply attempts_nil].
  - assert (R : res (read_repo_list "spaced.txt" world1) = inr ["/work/repo"]) by run.
    split; [exact R |].
    destruct (exit_code_of_main (plain_run "spaced.txt") prompt_source world1)
      as (_ & _ & _ & E).
    pose (a := plain_run "spaced.txt").
    pose (w2 := final (plain_entry "/work/repo" world1_with_temp_dir)).
    refine (E ["/work/repo"] temp_dir world1_with_temp_dir [true] w2
              (cleaned w2) _ _ R _ _ _ _); try run.
    + discriminate.
    + apply (attempts_cons prompt_source temp_dir a "/work/repo" [] world1_with_temp_dir
                           true "Repository processed successfully" w2
                           (log (plain_entry "/work/repo" world1_with_temp_dir)) [] w2);
        [run | apply attempts_nil].
Defined.

(** The URL of the claim, cloned in the temporary directory: the
    basename [my.github-tools] is [my] and [hub-tools] around one
    [.git], and the clone is made into [myhub-tools].  And a name with
    other dots: [aws.s3.git] gives [aws.s3]. *)
Lemma clone_directory_drops_every_dot_git_witness :
  (is_remote_url remote_url = true
   /\ OsPath.basename remote_url = PyStr.join ".git" ["my"; "hub-tools"]
   /\ Forall (fun p => PyStr.occurs ".git" p = false) ["my"; "hub-tools"]
   /\ (exists r, In (Did (CRun ["git"; "clone"; remote_url; "/tmp/tmp0/myhub-tools"]) r)
                    (log (plain_entry remote_url with_temp_dir)))
   /\ reply_to (CRun ["git"; "clone"; remote_url; "/tmp/tmp0/myhub-tools"])
               (log (plain_entry remote_url with_temp_dir)) = Some RYes
   /\ res (plain_entry remote_url with_temp_dir) = inr processed_ok)
  /\ (OsPath.basename "https://github.com/org/aws.s3.git" = PyStr.join ".git" ["aws.s3"; ""]
      /\ exists r, In (Did (CRun ["git"; "clone"; "https://github.com/org/aws.s3.git";
                                  "/tmp/tmp0/aws.s3"]) r)
                      (log (plain_entry "https://github.com/org/aws.s3.git" with_temp_dir))).
Proof.
  assert (F1 : Forall (fun p => PyStr.occurs ".git" p = false) ["my"; "hub-tools"])
    by (repeat constructor).
  assert (F2 : Forall (fun p => PyStr.occurs ".git" p = false) ["aws.s3"; ""])
    by (repeat constructor).
  split.
  - split; [reflexivity |]. split; [reflexivity |]. split; [exact F1 |].
    split; [| split; run].
    exact (proj2 (clone_directory_drops_every_dot_git
                    remote_url prompt_source temp_dir false false with_temp_dir eq_refl)
                 ["my"; "hub-tools"] eq_refl F1).
  - split; [reflexivity |].
    exact (proj2 (clone_directory_drops_every_dot_git
                    "https://github.com/org/aws.s3.git" prompt_source temp_dir
                    false false with_temp_dir eq_refl)
                 ["aws.s3"; ""] eq_refl F2).
Defined.

(** No list file, no prompt, a list of white space only. *)
Lemma validation_precedes_every_change_witness :
  final (main (plain_run "missing.txt") prompt_source world0) = world0
  /\ res (main (plain_run "missing.txt") prompt_source world0) = inl (SystemExit 1)
  /\ final (main (plain_run "repos.txt") "/nowhere/review-docs.md" world0) = world0
  /\ res (main (plain_run "repos.txt") "/nowhere/review-docs.md" world0)
     = inl (SystemExit 1)
  /\ res (read_repo_list "blank.txt" world1) = inr []
  /\ final (main (plain_run "blank.txt") prompt_source world1) = world1
  /\ res (main (plain_run "blank.txt") prompt_source world1) = inl (SystemExit 1).
Proof.
  destruct (validation_precedes_every_change (plain_run "missing.txt") prompt_source world0)
    as (A & _).
  destruct (validation_precedes_every_change (plain_run "repos.txt")
                                             "/nowhere/review-docs.md" world0)
    as (_ & B & _).
  destruct (validation_precedes_every_change (plain_run "blank.txt") prompt_source world1)
    as (_ & _ & C).
  assert (R : res (read_repo_list "blank.txt" world1) = inr []) by run.
  assert (A' := A ltac:(run)).
  assert (B' := B ltac:(run) ltac:(run)).
  destruct (C ltac:(run) ltac:(run) R) as (C1 & C2 & _).
  split; [now rewrite A' |]. split; [now rewrite A' |].
  split; [now rewrite B' |]. split; [now rewrite B' |].
  split; [exact R |]. split; [exact C2 | exact C1].
Defined.

(** The list [two.txt]: [/work/bad] raises, the temporary directory is
    cleaned up all the same, and the exception leaves [main]. *)
Lemma temporary_directory_is_always_removed_witness :
  res (read_repo_list "two.txt" world0) = inr ["/work/bad"; "/work/repo"]
  /\ res (process_all ["/work/bad"; "/work/repo"] 1 2 prompt_source temp_dir
                      (plain_run "two.txt") 0 0 with_temp_dir) = inl NotADirectoryError
  /\ res (main (plain_run "two.txt") prompt_source world0) = inl NotADirectoryError
  /\ exists r, In (Did (CCleanup temp_dir) r)
                  (log (main (plain_run "two.txt") prompt_source world0)).
Proof.
  pose (repos := ["/work/bad"; "/work/repo"]).
  assert (L : os_path_isfile (repo_list (effective (plain_run "two.txt"))) world0 = true)
    by run.
  assert (P : os_path_isfile prompt_source world0 = true) by run.
  assert (Rd : res (read_repo_list (repo_list (effective (plain_run "two.txt"))) world0)
               = inr repos) by run.
  assert (E : repos <> []) by discriminate.
  assert (T : tempfile_create world0 = inr (temp_dir, with_temp_dir)) by run.
  destruct (temporary_directory_is_always_removed
              (plain_run "two.txt") prompt_source world0 repos temp_dir with_temp_dir
              L P Rd E T) as ((l1 & l2 & r & Lg & _) & Raised & _).
  assert (R : res (process_all repos 1 (length repos) prompt_source temp_dir
                               (effective (plain_run "two.txt")) 0 0 with_temp_dir)
              = inl NotADirectoryError) by run.
  split; [exact Rd |]. split; [exact R |]. split.
  - refine (proj1 (Raised NotADirectoryError _ R _)). run.
  - exists r. rewrite Lg. apply in_or_app. right. apply in_or_app. right. now left.
Defined.

(** The list [mixed.txt]: two entries, of which the first fails. *)
Lemma summary_counts_the_entries_witness :
  res (read_repo_list "mixed.txt" world0) = inr ["/work/plain"; "/work/repo"]
  /\ In (total_line 2) (log (main (plain_run "mixed.txt") prompt_source world0))
  /\ In (successful_line 1) (log (main (plain_run "mixed.txt") prompt_source world0))
  /\ In (failed_line 1) (log (main (plain_run "mixed.txt") prompt_source world0)).
Proof.
  pose (repos := ["/work/plain"; "/work/repo"]).
  pose (a := plain_run "mixed.txt").
  pose (w2 := final (plain_entry "/work/plain" with_temp_dir)).
  pose (w3 := final (plain_entry "/work/repo" w2)).
  assert (L : os_path_isfile (repo_list (effective a)) world0 = true) by run.
  assert (P : os_path_isfile prompt_source world0 = true) by run.
  assert (Rd : res (read_repo_list (repo_list (effective a)) world0) = inr repos) by run.
  assert (E : repos <> []) by discriminate.
  assert (T : tempfile_create world0 = inr (temp_dir, with_temp_dir)) by run.
  assert (A : attempts prompt_source temp_dir (effective a) repos
                       with_temp_dir [false; true] w3).
  { apply (attempts_cons prompt_source temp_dir (effective a) "/work/plain" ["/work/repo"]
                         with_temp_dir false "Not a git repository: /work/plain" w2
                         (log (plain_entry "/work/plain" with_temp_dir)) [true] w3);
      [run |].
    apply (attempts_cons prompt_source temp_dir (effective a) "/work/repo" [] w2
                         true "Repository processed successfully" w3
                         (log (plain_entry "/work/repo" w2)) [] w3);
      [run | apply attempts_nil]. }
  assert (C : tempfile_cleanup temp_dir w3 = inr (cleaned w3)) by run.
  destruct (summary_counts_the_entries a prompt_source world0 repos temp_dir with_temp_dir
                                       [false; true] w3 (cleaned w3) L P Rd E T A C)
    as (_ & Tl & Sl & Fl & _).
  split; [exact Rd |]. split; [exact Tl |]. split; [exact Sl |]. apply Fl. cbn. lia.
Defined.

End ScenarioRuns.
